(** * yeyak: the reservation fetcher and the digest composer

    A shallow embedding of [fetch_reservations.py] and [compose_email.py].

    - Python [str] is a list of Unicode code points, so that [len], slicing,
      [in] and [==] are the list operations.
    - A JSON value as [resp.json()] / [json.load] deliver it is [pyval]; a
      record ([Dict[str, Any]]) is a [gmap] from field names to [pyval].
    - Exceptions are explicit: a function that can raise returns a [result].
    - The network, the environment and the file system are inputs of the
      two [main] functions, which return their exit code together with the
      trace of the effects they performed.
    - Built-ins of the Python runtime that are formatting or parsing
      libraries of their own ([datetime.strptime], [repr] of containers and
      floats, [int] of a string or float) are the fields of the class
      [Runtime]; every definition and theorem is generic in it. *)

From Stdlib Require Import ZArith NArith List String Ascii Bool Lia.
From Stdlib Require Import Sorting.Permutation Sorting.Sorted.
From Stdlib Require Import Floats.SpecFloat DecimalN.
From stdpp Require Import gmap strings list sorting.
Import ListNotations.

Set Warnings "-register-all".
#[local] Open Scope N_scope.

(** ** Python strings *)

Abbreviation str := (list N).

(** Decoder for the UTF-8 literals of this file: [u "..."] is the sequence
    of code points the same literal denotes in the Python sources. *)
Fixpoint utf8_go (pending : nat) (acc : N) (bs : list N) : str :=
  match bs with
  | [] => []
  | b :: bs' =>
      match pending with
      | O => if b <? 128 then b :: utf8_go 0 0 bs'
             else if b <? 224 then utf8_go 1 (b mod 32) bs'
             else if b <? 240 then utf8_go 2 (b mod 16) bs'
             else utf8_go 3 (b mod 8) bs'
      | S O => (acc * 64 + b mod 64) :: utf8_go 0 0 bs'
      | S p => utf8_go p (acc * 64 + b mod 64) bs'
      end
  end.

Definition u (s : string) : str :=
  utf8_go 0 0 (List.map N_of_ascii (list_ascii_of_string s)).

(** [a == b] on strings. *)
Definition str_eqb (a b : str) : bool := bool_decide (a = b).

(** [s or d] on strings. *)
Definition str_or (s d : str) : str :=
  match s with
  | [] => d
  | _ => s
  end.

(** [s.startswith(p)]. *)
Fixpoint startswith (s p : str) : bool :=
  match p, s with
  | [], _ => true
  | _ :: _, [] => false
  | a :: p', b :: s' => (a =? b) && startswith s' p'
  end.

(** [n in s]: plain substring containment. *)
Fixpoint str_in (n s : str) : bool :=
  startswith s n ||
  match s with
  | [] => false
  | _ :: s' => str_in n s'
  end.

(** [str.isspace] of one character: the code points Python's [strip()]
    removes. *)
Definition isspace (c : N) : bool :=
  ((9 <=? c) && (c <=? 13)) || ((28 <=? c) && (c <=? 32))
  || (c =? 133) || (c =? 160) || (c =? 5760)
  || ((8192 <=? c) && (c <=? 8202))
  || (c =? 8232) || (c =? 8233) || (c =? 8239) || (c =? 8287) || (c =? 12288).

Fixpoint lstrip_by (f : N -> bool) (s : str) : str :=
  match s with
  | [] => []
  | c :: s' => if f c then lstrip_by f s' else s
  end.

Definition strip_by (f : N -> bool) (s : str) : str :=
  rev (lstrip_by f (rev (lstrip_by f s))).

(** [s.strip()]. *)
Definition strip (s : str) : str := strip_by isspace s.

(** [sep.join(parts)]. *)
Fixpoint join (sep : str) (parts : list str) : str :=
  match parts with
  | [] => []
  | [p] => p
  | p :: ps => p ++ sep ++ join sep ps
  end.

(** Decimal digits of a number, most significant first. *)
Fixpoint uint_chars (d : Decimal.uint) : str :=
  match d with
  | Decimal.Nil => []
  | Decimal.D0 d => 48 :: uint_chars d
  | Decimal.D1 d => 49 :: uint_chars d
  | Decimal.D2 d => 50 :: uint_chars d
  | Decimal.D3 d => 51 :: uint_chars d
  | Decimal.D4 d => 52 :: uint_chars d
  | Decimal.D5 d => 53 :: uint_chars d
  | Decimal.D6 d => 54 :: uint_chars d
  | Decimal.D7 d => 55 :: uint_chars d
  | Decimal.D8 d => 56 :: uint_chars d
  | Decimal.D9 d => 57 :: uint_chars d
  end.

(** [str(z)] for an [int]. *)
Definition str_of_Z (z : Z) : str :=
  if (z <? 0)%Z then 45 :: uint_chars (N.to_uint (Z.abs_N z))
  else uint_chars (N.to_uint (Z.to_N z)).

(** ** Python values *)

Inductive pyval :=
| PNone
| PBool (b : bool)
| PInt (z : Z)
| PFloat (f : spec_float)
| PStr (s : str)
| PList (l : list pyval)
| PDict (d : gmap str pyval).

Abbreviation row := (gmap str pyval).

(** [datetime]: the seven fields of a naive [datetime] object. *)
Record datetime := mk_datetime {
  year : N; month : N; day : N;
  hour : N; minute : N; second : N; microsecond : N
}.

(** [datetime.max]. *)
Definition datetime_max : datetime := mk_datetime 9999 12 31 23 59 59 999999.

(** Exceptions the two programs can meet. *)

(** Why [fetch_page] raised its [RuntimeError]. *)
Inductive fetch_failure :=
| ServerError (status : Z) (url : str)
| HttpError (status : Z) (url : str)
| RetriesExhausted (last_exc : option exn)

with exn :=
| AttributeError
| RuntimeError (why : fetch_failure)
| ConnectionError
| Timeout
| JSONDecodeError
| RequestException
| ValueError
| FileNotFoundError
| OSError
| SystemExit (code : Z).

Inductive result (A : Type) :=
| Ok (a : A)
| Raise (e : exn).
Arguments Ok {A} a.
Arguments Raise {A} e.

Definition bind {A B} (r : result A) (k : A -> result B) : result B :=
  match r with
  | Ok a => k a
  | Raise e => Raise e
  end.

Notation "x <- c ;; k" := (bind c (fun x => k))
  (at level 100, c at next level, right associativity).

(** The parts of the Python runtime that are taken as given. [None] stands
    for a raised [ValueError] / [TypeError]. *)
Class Runtime := {
  (** [datetime.strptime(s, fmt)] *)
  strptime : str -> str -> option datetime;
  (** [repr(v)] of a float, a list or a dict *)
  py_repr : pyval -> str;
  (** [int(v)] of a string or a float *)
  int_parse : pyval -> option Z
}.

(** [bool(v)]. *)
Definition truthy (v : pyval) : bool :=
  match v with
  | PNone => false
  | PBool b => b
  | PInt z => negb (z =? 0)%Z
  | PFloat f => match f with S754_zero _ => false | _ => true end
  | PStr s => match s with [] => false | _ => true end
  | PList l => match l with [] => false | _ => true end
  | PDict d => negb (bool_decide (d = ∅))
  end.

(** [a or b]. *)
Definition py_or (a b : pyval) : pyval := if truthy a then a else b.

(** [d.get(k)]. *)
Definition dict_get (d : row) (k : str) : pyval := default PNone (d !! k).

(** [str(v)]. *)
Definition py_str `{Runtime} (v : pyval) : str :=
  match v with
  | PNone => u "None"
  | PBool true => u "True"
  | PBool false => u "False"
  | PInt z => str_of_Z z
  | PStr s => s
  | PFloat _ | PList _ | PDict _ => py_repr v
  end.

(** [int(v)]. *)
Definition py_int `{Runtime} (v : pyval) : option Z :=
  match v with
  | PNone | PList _ | PDict _ => None
  | PBool b => Some (if b then 1 else 0)%Z
  | PInt z => Some z
  | PFloat _ | PStr _ => int_parse v
  end.

(** [isinstance(v, dict)] and [isinstance(v, list)], as views. *)
Definition as_dict (v : pyval) : option row :=
  match v with PDict d => Some d | _ => None end.

Definition as_list (v : pyval) : option (list pyval) :=
  match v with PList l => Some l | _ => None end.

(** [[r for r in l if isinstance(r, dict)]]. *)
Definition only_dicts (l : list pyval) : list row := omap as_dict l.

(** [str(d.get(k) or dflt)]: the defensive read both programs use. *)
Definition field_str `{Runtime} (r : row) (k : string) (dflt : string) : str :=
  py_str (py_or (dict_get r (u k)) (PStr (u dflt))).

(** [range(a, b)]. *)
Definition py_range (a b : Z) : list Z :=
  List.map (fun i => (a + Z.of_nat i)%Z) (seq 0 (Z.to_nat (b - a))).

(** ** Ordering of [datetime] and Python's [sorted] *)

Definition dt_tuple (d : datetime) : list N :=
  [year d; month d; day d; hour d; minute d; second d; microsecond d].

Fixpoint lex_ltb (a b : list N) : bool :=
  match a, b with
  | [], [] => false
  | [], _ :: _ => true
  | _ :: _, [] => false
  | x :: a', y :: b' => (x <? y) || ((x =? y) && lex_ltb a' b')
  end.

(** [d1 < d2] on naive datetimes. *)
Definition dt_ltb (d1 d2 : datetime) : bool := lex_ltb (dt_tuple d1) (dt_tuple d2).

(** [d1 <= d2]. *)
Definition dt_leb (d1 d2 : datetime) : bool := negb (dt_ltb d2 d1).

(** One step of a stable insertion: [x] goes in front of the first element
    whose key is not smaller than its own. *)
Fixpoint insert_by {A} (x : datetime * A) (l : list (datetime * A)) : list (datetime * A) :=
  match l with
  | [] => [x]
  | y :: l' => if dt_ltb (fst y) (fst x) then y :: insert_by x l' else x :: y :: l'
  end.

(** The stable sort of a list of keyed elements. *)
Fixpoint sort_keyed {A} (l : list (datetime * A)) : list (datetime * A) :=
  match l with
  | [] => []
  | x :: l' => insert_by x (sort_keyed l')
  end.

(** [[key(x) for x in l]], stopping at the first key that raises. *)
Fixpoint keyed {A} (key : A -> result datetime) (l : list A) : result (list (datetime * A)) :=
  match l with
  | [] => Ok []
  | x :: l' =>
      k <- key x ;;
      rest <- keyed key l' ;;
      Ok ((k, x) :: rest)
  end.

(** [sorted(l, key=key)]: the keys are computed once, then the list is
    sorted stably by them. *)
Definition py_sorted {A} (key : A -> result datetime) (l : list A) : result (list A) :=
  kl <- keyed key l ;;
  Ok (List.map snd (sort_keyed kl)).

(** ** Effects *)

(** What one [session.get(url, timeout=...)] does: it raises, or it returns
    a response with a status code and a body that [resp.json()] parses
    ([Some]) or fails to parse ([None]). *)
Inductive http_outcome :=
| GetConnectionError
| GetTimeout
| GetOtherError
| Response (status : Z) (body : option pyval).

(** The network, as the program meets it: the outcome of the [k]-th GET
    (counted from 0) of a URL. One run requests every URL from a single
    [fetch_page] call, so [k] is the attempt index inside that call. *)
Definition network := str -> nat -> http_outcome.

(** Effects the programs perform, in the order they happen:
    [EFetchPage] marks a call of [fetch_page] by [main] for a range,
    [EGet] and [ESleep] are the requests and the backoff sleeps inside it,
    the last two are [write_json] and [write_csv_summary]. Console output
    of the fetcher is left out. *)
Inductive event :=
| EFetchPage (start stop : Z)
| EGet (url : str)
| ESleep (secs : N)
| EWriteJson (path : str) (data : list row)
| EWriteCsv (path : str) (header : list str) (lines : list (list str)).

(** How a process ends: [sys.exit(code)] or an uncaught exception. *)
Inductive exit_status :=
| Exit (code : Z)
| Uncaught (e : exn).

(** ** Code the two files share verbatim *)

(** Both files carry the same [_load_env_from_dotenv] and the same
    format loop inside [parse_dt]. *)

(** A [.env] file as [open] finds it. *)
Inductive dotenv_file :=
| NoFile
| Unreadable
| Lines (ls : list str).

(** [s.split(c, 1)] for a string that contains [c]. *)
Fixpoint split_once (c : N) (s : str) : option (str * str) :=
  match s with
  | [] => None
  | x :: s' =>
      if x =? c then Some ([], s')
      else match split_once c s' with
           | Some (a, b) => Some (x :: a, b)
           | None => None
           end
  end.

Definition dotenv_line (env : gmap str str) (line : str) : gmap str str :=
  let s := strip line in
  if bool_decide (s = []) || startswith s (u "#") then env
  else
    match split_once 61 s with
    | None => env
    | Some (key, val) =>
        let key := strip key in
        let val := strip_by (N.eqb 39) (strip_by (N.eqb 34) (strip val)) in
        if negb (bool_decide (key = [])) && bool_decide (env !! key = None)
        then <[key := val]> env
        else env
    end.

Definition _load_env_from_dotenv (f : dotenv_file) (env : gmap str str)
  : result (gmap str str) :=
  match f with
  | NoFile => Ok env
  | Unreadable => Raise OSError
  | Lines ls => Ok (fold_left dotenv_line ls env)
  end.

(** The [for fmt in fmts] loop: the first format [strptime] accepts wins;
    every exception it raises is swallowed. *)
Fixpoint try_formats `{Runtime} (s : str) (fs : list str) : option datetime :=
  match fs with
  | [] => None
  | fmt :: fs' =>
      match strptime s fmt with
      | Some d => Some d
      | None => try_formats s fs'
      end
  end.

(** * fetch_reservations.py *)

Module Fetch.

Definition PAGE_SIZE : Z := 1000.
Definition MAX_RETRIES : Z := 3.

Definition COMPACT_FIELDS : list string :=
  ["SVCID"; "SVCNM"; "SVCSTATNM"; "AREANM"; "USETGTINFO"; "SVCURL";
   "RCPTBGNDT"; "RCPTENDDT"; "SVCOPNBGNDT"; "SVCOPNENDDT"; "PLACENM"]%string.

Record Row := mk_Row {
  SVCID : str; SVCNM : str; SVCSTATNM : str; AREANM : str;
  USETGTINFO : str; SVCURL : str; RCPTBGNDT : str; RCPTENDDT : str;
  SVCOPNBGNDT : str; SVCOPNENDDT : str; PLACENM : str
}.

Definition from_dict `{Runtime} (d : row) : Row :=
  let f k := field_str d k "" in
  mk_Row (f "SVCID") (f "SVCNM") (f "SVCSTATNM") (f "AREANM")
         (f "USETGTINFO") (f "SVCURL") (f "RCPTBGNDT") (f "RCPTENDDT")
         (f "SVCOPNBGNDT") (f "SVCOPNENDDT") (f "PLACENM").

Definition to_compact_dict (r : Row) : row :=
  list_to_map
    [(u "SVCID", PStr (SVCID r)); (u "SVCNM", PStr (SVCNM r));
     (u "SVCSTATNM", PStr (SVCSTATNM r)); (u "AREANM", PStr (AREANM r));
     (u "USETGTINFO", PStr (USETGTINFO r)); (u "SVCURL", PStr (SVCURL r));
     (u "RCPTBGNDT", PStr (RCPTBGNDT r)); (u "RCPTENDDT", PStr (RCPTENDDT r));
     (u "SVCOPNBGNDT", PStr (SVCOPNBGNDT r));
     (u "SVCOPNENDDT", PStr (SVCOPNENDDT r)); (u "PLACENM", PStr (PLACENM r))].

Definition fmts : list str :=
  [u "%Y-%m-%d %H:%M:%S.%f"; u "%Y-%m-%d %H:%M:%S"; u "%Y-%m-%d";
   u "%Y%m%d%H%M%S"; u "%Y%m%d"].

(** [parse_dt]. The argument is whatever the caller passes: a falsy value
    gives [None]; on a true value that is not a string, [s.strip()] raises. *)
Definition parse_dt `{Runtime} (s : pyval) : result (option datetime) :=
  if negb (truthy s) then Ok None
  else match s with
       | PStr s => Ok (try_formats (strip s) fmts)
       | _ => Raise AttributeError
       end.

Definition sort_key `{Runtime} (r : row) : result datetime :=
  d1 <- parse_dt (py_or (dict_get r (u "RCPTBGNDT")) (PStr [])) ;;
  match d1 with
  | Some d => Ok d
  | None =>
      d2 <- parse_dt (py_or (dict_get r (u "SVCOPNBGNDT")) (PStr [])) ;;
      Ok (default datetime_max d2)
  end.

Definition contains_any (haystack : str) (needles : list str) : bool :=
  let s := str_or haystack [] in
  existsb (fun n => str_in n s) needles.

Definition build_url (api_key : str) (start stop : Z) : str :=
  u "http://openapi.seoul.go.kr:8088/" ++ api_key
  ++ u "/json/ListPublicReservationEducation/"
  ++ str_of_Z start ++ u "/" ++ str_of_Z stop ++ u "/".

(** State of the retry loop of [fetch_page]. *)
Record retry_state := mk_retry {
  backoff : N;
  last_exc : option exn;
  log : list event
}.

(** How one iteration of the loop ends. *)
Inductive control :=
| Return (v : pyval)
| Raising (e : exn)
| Break
| Continue.

(** [time.sleep(backoff); backoff *= 2]. *)
Definition sleep_and_double (st : retry_state) : retry_state :=
  mk_retry (backoff st * 2) (last_exc st) (log st ++ [ESleep (backoff st)]).

Definition set_last_exc (e : exn) (st : retry_state) : retry_state :=
  mk_retry (backoff st) (Some e) (log st).

(** The body of [for attempt in range(1, MAX_RETRIES + 1)]. *)
Definition attempt_body (net : network) (url : str) (attempt : Z) (st : retry_state)
  : retry_state * control :=
  let st := mk_retry (backoff st) (last_exc st) (log st ++ [EGet url]) in
  let retry_or_break st :=
    if (attempt =? MAX_RETRIES)%Z then (st, Break)
    else (sleep_and_double st, Continue) in
  match net url (Z.to_nat (attempt - 1)) with
  | Response status body =>
      if (200 <=? status)%Z && (status <? 300)%Z then
        match body with
        | Some v => (st, Return v)
        | None => retry_or_break (set_last_exc JSONDecodeError st)
        end
      else if (500 <=? status)%Z && (status <? 600)%Z then
        if (attempt =? MAX_RETRIES)%Z
        then (st, Raising (RuntimeError (ServerError status url)))
        else (sleep_and_double st, Continue)
      else (st, Raising (RuntimeError (HttpError status url)))
  | GetConnectionError => retry_or_break (set_last_exc ConnectionError st)
  | GetTimeout => retry_or_break (set_last_exc Timeout st)
  | GetOtherError => (st, Raising RequestException)
  end.

(** The loop; [None] when it is left by [break] or by running out. *)
Fixpoint retry_loop (net : network) (url : str) (attempts : list Z) (st : retry_state)
  : retry_state * option (result pyval) :=
  match attempts with
  | [] => (st, None)
  | attempt :: rest =>
      match attempt_body net url attempt st with
      | (st', Return v) => (st', Some (Ok v))
      | (st', Raising e) => (st', Some (Raise e))
      | (st', Break) => (st', None)
      | (st', Continue) => retry_loop net url rest st'
      end
  end.

Definition fetch_page (net : network) (url : str) : list event * result pyval :=
  let '(st, r) := retry_loop net url (py_range 1 (MAX_RETRIES + 1)) (mk_retry 1 None []) in
  match r with
  | Some r => (log st, r)
  | None => (log st, Raise (RuntimeError (RetriesExhausted (last_exc st))))
  end.

Definition extract_payload `{Runtime} (data : pyval) : Z * list row :=
  let obj := match as_dict data with
             | Some d => dict_get d (u "ListPublicReservationEducation")
             | None => PNone
             end in
  match as_dict obj with
  | None => (0%Z, [])
  | Some obj =>
      let total := dict_get obj (u "list_total_count") in
      let total_count := match py_int total with Some n => n | None => 0%Z end in
      let rows_list := match as_list (dict_get obj (u "row")) with
                       | None => []
                       | Some rows => only_dicts rows
                       end in
      (total_count, rows_list)
  end.

Definition areas : gset str := {[ u "강남구"; u "서초구"; u "송파구" ]}.
Definition statuses : gset str := {[ u "접수중"; u "안내중" ]}.
Definition needles : list str := [u "유아"; u "제한없음"; u "가족"].

(** The body of [for r in rows] in [filter_rows], on the pair of output
    lists. *)
Definition filter_step `{Runtime} (acc : list row * list row) (r : row)
  : list row * list row :=
  let '(v12, v123) := acc in
  let areanm := field_str r "AREANM" "" in
  let svcstat := field_str r "SVCSTATNM" "" in
  let usetgt := field_str r "USETGTINFO" "" in
  let cond1 := bool_decide (areanm ∈ areas) in
  let cond2 := bool_decide (svcstat ∈ statuses) in
  if cond1 && cond2 then
    let v12 := v12 ++ [r] in
    if contains_any usetgt needles then (v12, v123 ++ [r]) else (v12, v123)
  else (v12, v123).

Definition filter_rows `{Runtime} (rows : list row) : list row * list row :=
  fold_left filter_step rows ([], []).

Definition project_compact `{Runtime} (rows : list row) : list row :=
  List.map (fun r => to_compact_dict (from_dict r)) rows.

Definition csv_cols : list string :=
  ["SVCID"; "SVCNM"; "SVCSTATNM"; "AREANM"; "USETGTINFO"; "SVCURL";
   "RCPTBGNDT"; "RCPTENDDT"]%string.

Definition write_csv_summary `{Runtime} (path : str) (rows : list row) : event :=
  EWriteCsv path (List.map u csv_cols)
            (List.map (fun r => List.map (fun c => field_str r c "") csv_cols) rows).

Definition page_bounds (p : Z) : Z * Z :=
  ((p - 1) * PAGE_SIZE + 1, p * PAGE_SIZE)%Z.

(** [for p in range(2, total_pages + 1)]. The second component is [None]
    when [main] returns 3 from inside the loop. *)
Fixpoint fetch_known `{Runtime} (net : network) (api_key : str) (pages : list Z)
  (all_rows : list row) (tr : list event) : list event * option (list row) :=
  match pages with
  | [] => (tr, Some all_rows)
  | p :: rest =>
      let '(start, stop) := page_bounds p in
      let '(ev, r) := fetch_page net (build_url api_key start stop) in
      let tr := tr ++ EFetchPage start stop :: ev in
      match r with
      | Raise _ => (tr, None)
      | Ok data =>
          match snd (extract_payload data) with
          | [] => (tr, Some all_rows)
          | rows => fetch_known net api_key rest (all_rows ++ rows) tr
          end
      end
  end.

(** [while True] from page [p] on; [fuel] bounds the number of iterations
    and the outer [None] says it ran out. *)
Fixpoint fetch_unknown `{Runtime} (fuel : nat) (net : network) (api_key : str) (p : Z)
  (all_rows : list row) (tr : list event) : option (list event * option (list row)) :=
  match fuel with
  | O => None
  | S fuel' =>
      let '(start, stop) := page_bounds p in
      let '(ev, r) := fetch_page net (build_url api_key start stop) in
      let tr := tr ++ EFetchPage start stop :: ev in
      match r with
      | Raise _ => Some (tr, None)
      | Ok data =>
          match snd (extract_payload data) with
          | [] => Some (tr, Some all_rows)
          | rows => fetch_unknown fuel' net api_key (p + 1)%Z (all_rows ++ rows) tr
          end
      end
  end.

(** The part of [main] after the fetch loops: sort, filter, project and
    write. Writes are taken to succeed. *)
Definition finish `{Runtime} (tr : list event) (all_rows : list row)
  : list event * exit_status :=
  match py_sorted sort_key all_rows with
  | Raise e => (tr, Uncaught e)
  | Ok all_rows_sorted =>
      let '(filtered_v12, filtered_v123) := filter_rows all_rows_sorted in
      let v12_compact := project_compact filtered_v12 in
      let v123_compact := project_compact filtered_v123 in
      match py_sorted sort_key v12_compact with
      | Raise e => (tr, Uncaught e)
      | Ok v12_sorted_for_csv =>
          (tr ++ [EWriteJson (u "seoul_education_all.json") all_rows_sorted;
                  EWriteJson (u "seoul_education_v12.json") v12_compact;
                  EWriteJson (u "seoul_education_v123.json") v123_compact;
                  write_csv_summary (u "seoul_education_summary.csv") v12_sorted_for_csv],
           Exit 0)
      end
  end.

Definition main `{Runtime} (fuel : nat) (dotenv : dotenv_file)
  (environ : gmap str str) (net : network) : option (list event * exit_status) :=
  match _load_env_from_dotenv dotenv environ with
  | Raise e => Some ([], Uncaught e)
  | Ok environ =>
      let api_key := strip (default [] (environ !! u "SEOUL_API_KEY")) in
      if bool_decide (api_key = []) then Some ([], Exit 2)
      else
        let start := 1%Z in
        let stop := PAGE_SIZE in
        let '(ev, r) := fetch_page net (build_url api_key start stop) in
        let tr := EFetchPage start stop :: ev in
        match r with
        | Raise _ => Some (tr, Exit 3)
        | Ok data =>
            let '(total_count, first_rows) := extract_payload data in
            let all_rows := [] ++ first_rows in
            let fetched :=
              if (total_count >? 0)%Z then
                let total_pages := ((total_count + PAGE_SIZE - 1) / PAGE_SIZE)%Z in
                Some (fetch_known net api_key (py_range 2 (total_pages + 1)) all_rows tr)
              else fetch_unknown fuel net api_key 2 all_rows tr in
            match fetched with
            | None => None
            | Some (tr, None) => Some (tr, Exit 3)
            | Some (tr, Some all_rows) => Some (finish tr all_rows)
            end
        end
  end.

End Fetch.

(** * compose_email.py *)

Module Compose.

Definition V12_PATH : str := u "seoul_education_v12.json".
Definition V123_PATH : str := u "seoul_education_v123.json".

Definition fmts : list str :=
  [u "%Y-%m-%d %H:%M:%S.%f"; u "%Y-%m-%d %H:%M:%S"; u "%Y-%m-%d";
   u "%Y%m%d%H%M%S"; u "%Y%m%d"].

Definition parse_dt `{Runtime} (s : str) : option datetime :=
  match s with
  | [] => None
  | _ => try_formats (strip s) fmts
  end.

Definition sort_key `{Runtime} (r : row) : datetime :=
  match parse_dt (field_str r "RCPTBGNDT" "") with
  | Some d => d
  | None =>
      match parse_dt (field_str r "SVCOPNBGNDT" "") with
      | Some d => d
      | None => datetime_max
      end
  end.

(** What [open(path)] followed by [json.load] gives. *)
Inductive file_read :=
| Missing
| Broken
| Loaded (data : pyval).

(** [load_list]: both handlers end in [sys.exit(3)]. *)
Definition load_list (f : file_read) : result (list row) :=
  match f with
  | Missing => Raise (SystemExit 3)
  | Broken => Raise (SystemExit 3)
  | Loaded data =>
      match as_list data with
      | None => Raise (SystemExit 3)
      | Some l => Ok (only_dicts l)
      end
  end.

Definition ellipsis : str := u "…".

Definition trunc (s : str) (n : Z) : str :=
  let s := str_or s (u "-") in
  if (Z.of_nat (length s) <=? n)%Z then s
  else take (Z.to_nat (Z.max 0 (n - 1))) s ++ ellipsis.

Definition line_for `{Runtime} (r : row) : str :=
  let areanm := trunc (field_str r "AREANM" "-") 10 in
  let svcnm := trunc (field_str r "SVCNM" "-") 40 in
  let svcstat := trunc (field_str r "SVCSTATNM" "-") 10 in
  let rcpbgn := trunc (field_str r "RCPTBGNDT" "-") 19 in
  let rcpend := trunc (field_str r "RCPTENDDT" "-") 19 in
  let svcid := field_str r "SVCID" "-" in
  let link :=
    if negb (str_eqb svcid (u "-"))
    then u "https://yeyak.seoul.go.kr/web/reservation/selectReservView.do?rsv_svc_id=" ++ svcid
    else u "-" in
  u "- [" ++ areanm ++ u "] " ++ svcnm ++ u " (" ++ svcstat ++ u ") | "
  ++ u "접수: " ++ rcpbgn ++ u " ~ " ++ rcpend ++ u " | 링크: " ++ link.

(** [sorted(rows, key=sort_key)], for a key that cannot raise. *)
Definition sorted `{Runtime} (rows : list row) : list row :=
  List.map snd (sort_keyed (List.map (fun r => (sort_key r, r)) rows)).

Definition count_line (rows : list row) : str :=
  u "총 " ++ str_of_Z (Z.of_nat (length rows)) ++ u "건".

Definition no_items : str := u "해당 조건에 맞는 항목이 없습니다.".

(** The list [out] of [section] when it returns. *)
Definition section_out `{Runtime} (title : str) (rows : list row) : list str :=
  let out := [title; []; count_line rows; []] in
  match rows with
  | [] => out ++ [no_items]
  | _ =>
      let rows_sorted := take 10 (sorted rows) in
      out ++ List.map line_for rows_sorted
  end.

Definition newline : str := [10].

Definition section `{Runtime} (title : str) (rows : list row) : str :=
  join newline (section_out title rows).

(** [main]: the printed body, if any, and how the process ends. *)
Definition main `{Runtime} (dotenv : dotenv_file) (environ : gmap str str)
  (fs : str -> file_read) : option str * exit_status :=
  match _load_env_from_dotenv dotenv environ with
  | Raise e => (None, Uncaught e)
  | Ok _ =>
      match load_list (fs V12_PATH) with
      | Raise (SystemExit c) => (None, Exit c)
      | Raise e => (None, Uncaught e)
      | Ok v12 =>
          match load_list (fs V123_PATH) with
          | Raise (SystemExit c) => (None, Exit c)
          | Raise e => (None, Uncaught e)
          | Ok v123 =>
              let parts :=
                [u "서울시 공공서비스예약 - 일일 알림"; [];
                 section (u "[v12] 조건 (1)&(2)") v12; [];
                 u "-----"; [];
                 section (u "[v123] 조건 (1)&(2)&(3)") v123] in
              (Some (join newline parts), Exit 0)
          end
      end
  end.

End Compose.

(** * Vocabulary of the specification *)

(** [n] occurs in [s] as a contiguous run of characters. *)
Definition substring (n s : str) : Prop := exists pre suf, s = pre ++ n ++ suf.

(** A field that is missing, null or the empty string. *)
Definition blank_field (r : row) (k : string) : Prop :=
  r !! u k = None \/ r !! u k = Some PNone \/ r !! u k = Some (PStr []).

(** The two per-record tests of [filter_rows]. *)
Definition pass12 `{Runtime} (r : row) : bool :=
  bool_decide (field_str r "AREANM" "" ∈ Fetch.areas)
  && bool_decide (field_str r "SVCSTATNM" "" ∈ Fetch.statuses).

Definition pass3 `{Runtime} (r : row) : bool :=
  Fetch.contains_any (field_str r "USETGTINFO" "") Fetch.needles.

(** The page ranges [main] asked [fetch_page] for, in order. *)
Definition page_fetches (tr : list event) : list (Z * Z) :=
  omap (fun e => match e with EFetchPage a b => Some (a, b) | _ => None end) tr.

(** The GET requests and the sleeps of a trace. *)
Definition gets (tr : list event) : list str :=
  omap (fun e => match e with EGet url => Some url | _ => None end) tr.

Definition sleeps (tr : list event) : list N :=
  omap (fun e => match e with ESleep t => Some t | _ => None end) tr.

(** The files a trace writes, in order. *)
Definition files_written (tr : list event) : list str :=
  omap (fun e => match e with
                 | EWriteJson p _ => Some p
                 | EWriteCsv p _ _ => Some p
                 | _ => None
                 end) tr.

(** Status classes of a response. *)
Definition is_2xx (status : Z) : bool := (200 <=? status)%Z && (status <? 300)%Z.
Definition is_5xx (status : Z) : bool := (500 <=? status)%Z && (status <? 600)%Z.

(** An outcome of one GET that the specification calls retryable: a
    connection failure, a timeout, a 5xx status, or a 2xx response whose
    body does not parse. *)
Definition retryable (o : http_outcome) : bool :=
  match o with
  | GetConnectionError | GetTimeout => true
  | GetOtherError => false
  | Response status body =>
      if is_2xx status then match body with None => true | Some _ => false end
      else is_5xx status
  end.

(** The trace of a page fetch that makes [n] attempts with backoff 1, 2. *)
Definition expected_trace (url : str) (n : nat) : list event :=
  EGet url :: flat_map (fun t => [ESleep t; EGet url]) (take (n - 1) [1; 2]).

(** Two keys that compare equal. *)
Definition same_key (a b : datetime) : bool :=
  negb (dt_ltb a b) && negb (dt_ltb b a).

(** The ranges of the fields of a [datetime] object. *)
Definition dt_valid (d : datetime) : Prop :=
  year d <= 9999 /\ month d <= 12 /\ day d <= 31 /\ hour d <= 23
  /\ minute d <= 59 /\ second d <= 59 /\ microsecond d <= 999999.

(** Keyed elements in non-decreasing order of their keys. *)
Definition key_le {A} (x y : datetime * A) : Prop := dt_leb (fst x) (fst y) = true.

(** Records in non-decreasing order of the composer's sort key. *)
Definition by_sort_key `{Runtime} (a b : row) : Prop :=
  dt_leb (Compose.sort_key a) (Compose.sort_key b) = true.

(** A field that is missing, null or a string. *)
Definition text_field (r : row) (k : string) : Prop :=
  r !! u k = None \/ r !! u k = Some PNone \/ exists s, r !! u k = Some (PStr s).

(** Events of the network layer. *)
Definition net_event (e : event) : Prop :=
  match e with
  | EGet _ | ESleep _ => True
  | _ => False
  end.

(** Among the page fetches a trace records, one ended in an exception. *)
Definition fetch_failed (net : network) (api_key : str) (tr : list event) : Prop :=
  exists start stop e,
    In (EFetchPage start stop) tr
    /\ (Fetch.fetch_page net (Fetch.build_url api_key start stop)).2 = Raise e.

(** The result of fetching page [p]. *)
Definition page_result (net : network) (api_key : str) (p : Z) : result pyval :=
  (Fetch.fetch_page net (Fetch.build_url api_key (Fetch.page_bounds p).1
                                         (Fetch.page_bounds p).2)).2.

(** Page [p] is fetched and carries at least one row. *)
Definition page_full `{Runtime} (net : network) (api_key : str) (p : Z) : Prop :=
  exists d, page_result net api_key p = Ok d /\ (Fetch.extract_payload d).2 <> [].

(** Fetching page [p] raises. *)
Definition page_fails (net : network) (api_key : str) (p : Z) : Prop :=
  exists e, page_result net api_key p = Raise e.

(** Page [p] is fetched and carries no row. *)
Definition page_empty `{Runtime} (net : network) (api_key : str) (p : Z) : Prop :=
  exists d, page_result net api_key p = Ok d /\ (Fetch.extract_payload d).2 = [].



(** The key [main] reads from the environment after loading [.env]. *)
Definition effective_key (env : gmap str str) : str :=
  strip (default [] (env !! u "SEOUL_API_KEY")).

(** [isinstance(v, dict)]. *)
Definition is_dict (v : pyval) : bool :=
  match v with PDict _ => true | _ => false end.


(** The four output files, in the order [main] writes them. *)
Definition output_files : list str :=
  [u "seoul_education_all.json"; u "seoul_education_v12.json";
   u "seoul_education_v123.json"; u "seoul_education_summary.csv"].

(** The value of a string of ASCII decimal digits. *)
Definition digit (c : N) : option N :=
  if (48 <=? c) && (c <=? 57) then Some (c - 48) else None.

Fixpoint number (acc : N) (s : str) : option N :=
  match s with
  | [] => Some acc
  | c :: s' => match digit c with
               | Some d => number (acc * 10 + d) s'
               | None => None
               end
  end.

(** ** Inputs for the examples *)

(** A small runtime: [strptime] knows the two date-only formats on
    zero-padded ASCII digits, containers print as nothing and [int] of a
    string or float fails. *)
Definition demo_strptime (s fmt : str) : option datetime :=
  if bool_decide (fmt = u "%Y%m%d") then
    match s with
    | [y1; y2; y3; y4; m1; m2; d1; d2] =>
        match number 0 [y1; y2; y3; y4], number 0 [m1; m2], number 0 [d1; d2] with
        | Some y, Some m, Some d => Some (mk_datetime y m d 0 0 0 0)
        | _, _, _ => None
        end
    | _ => None
    end
  else if bool_decide (fmt = u "%Y-%m-%d") then
    match s with
    | [y1; y2; y3; y4; 45; m1; m2; 45; d1; d2] =>
        match number 0 [y1; y2; y3; y4], number 0 [m1; m2], number 0 [d1; d2] with
        | Some y, Some m, Some d => Some (mk_datetime y m d 0 0 0 0)
        | _, _, _ => None
        end
    | _ => None
    end
  else None.

Definition demo_runtime : Runtime :=
  {| strptime := demo_strptime; py_repr := fun _ => []; int_parse := fun _ => None |}.

(** Records, a page body and a network that always answers with it. *)
Definition record (area status target : string) : row :=
  <[u "AREANM" := PStr (u area)]>
    (<[u "SVCSTATNM" := PStr (u status)]>
       (<[u "USETGTINFO" := PStr (u target)]> ∅)).

Definition record_no_target (area status : string) : row :=
  <[u "AREANM" := PStr (u area)]> (<[u "SVCSTATNM" := PStr (u status)]> ∅).

Definition page_body (total : Z) (rows : list row) : pyval :=
  PDict (<[u "ListPublicReservationEducation" :=
             PDict (<[u "list_total_count" := PInt total]>
                      (<[u "row" := PList (List.map PDict rows)]> ∅))]> ∅).

Definition steady_network (total : Z) (rows : list row) : network :=
  fun _ _ => Response 200 (Some (page_body total rows)).

(** A network that answers 503, then times out, then answers 404. *)
Definition flaky_network : network :=
  fun _ k =>
    match k with
    | O => Response 503 None
    | S O => GetTimeout
    | _ => Response 404 None
    end.

(** ** Vocabulary for the further properties *)


(** A key the loader can add: not empty, without [=], and stripped. *)
Definition loadable_key (k : str) : Prop := k <> [] /\ ~ In 61 k /\ strip k = k.

(** The compact projection of one record. *)
Abbreviation compact r := (Fetch.to_compact_dict (Fetch.from_dict r)).

(** The rows page [p] delivers (none when its fetch fails). *)
Definition page_rows `{Runtime} (net : network) (api_key : str) (p : Z) : list row :=
  match page_result net api_key p with
  | Ok d => (Fetch.extract_payload d).2
  | Raise _ => []
  end.

(** The page count [main] computes from a declared total. *)
Definition total_pages (total : Z) : Z :=
  ((total + Fetch.PAGE_SIZE - 1) / Fetch.PAGE_SIZE)%Z.

(** A network, for the key [key], whose pages carry [rows] up to page
    [last] and are empty after it, all declaring the same total. *)
Definition finite_network (total last : Z) (rows : list row) : network :=
  fun url _ =>
    if existsb (fun p => bool_decide (url = Fetch.build_url (u "key")
                                              (Fetch.page_bounds p).1
                                              (Fetch.page_bounds p).2))
               (py_range 1 (last + 1))
    then Response 200 (Some (page_body total rows))
    else Response 200 (Some (page_body total [])).

(** A network that times out once and then answers with the body 7. *)
Definition recovering_network : network :=
  fun _ k =>
    match k with
    | O => GetTimeout
    | _ => Response 200 (Some (PInt 7))
    end.


(** The deep link of a service id. *)
Definition link_of (svcid : str) : str :=
  u "https://yeyak.seoul.go.kr/web/reservation/selectReservView.do?rsv_svc_id=" ++ svcid.

(** * Strings *)

Lemma startswith_spec (s p : str) :
  startswith s p = true <-> exists suf, s = p ++ suf.
Proof.
  revert s. induction p as [|a p IH]; intros s; simpl.
  - split; [intros _; now exists s | now destruct s].
  - destruct s as [|b s]; simpl.
    + split; [discriminate | intros [suf Hs]; discriminate].
    + rewrite andb_true_iff, N.eqb_eq, IH. split.
      * intros [-> [suf ->]]. eauto.
      * intros [suf Hs]. injection Hs as -> ->. eauto.
Qed.

Lemma str_in_spec (n s : str) : str_in n s = true <-> substring n s.
Proof.
  unfold substring. induction s as [|c s IH]; cbn [str_in].
  - rewrite orb_false_r, startswith_spec. split.
    + intros [suf Hs]. exists [], suf. exact Hs.
    + intros (pre & suf & Hs). destruct pre; simpl in Hs.
      * eauto.
      * discriminate.
  - rewrite orb_true_iff, startswith_spec, IH. split.
    + intros [[suf Hs] | (pre & suf & Hs)].
      * exists [], suf. exact Hs.
      * exists (c :: pre), suf. simpl. now rewrite Hs.
    + intros (pre & suf & Hs). destruct pre as [|c' pre]; simpl in Hs.
      * left. eauto.
      * right. injection Hs as _ Hs. eauto.
Qed.

(** * The two-stage filter *)

Section Filter.
Context `{Runtime}.

Lemma field_str_of_string (r : row) (k d : string) (s : str) :
  r !! u k = Some (PStr s) -> s <> [] -> field_str r k d = s.
Proof.
  intros Hk Hs. unfold field_str, dict_get, py_or. rewrite Hk. simpl.
  destruct s; [contradiction | reflexivity].
Qed.

Lemma field_str_blank (r : row) (k : string) :
  blank_field r k -> field_str r k "" = [].
Proof.
  unfold field_str, dict_get, py_or.
  intros [Hk | [Hk | Hk]]; rewrite Hk; reflexivity.
Qed.

Lemma filter_step_eq (v12 v123 : list row) (r : row) :
  Fetch.filter_step (v12, v123) r
  = if pass12 r
    then if pass3 r then (v12 ++ [r], v123 ++ [r]) else (v12 ++ [r], v123)
    else (v12, v123).
Proof. reflexivity. Qed.

Lemma filter_rows_from (rows v12 v123 : list row) :
  fold_left Fetch.filter_step rows (v12, v123)
  = (v12 ++ List.filter pass12 rows,
     v123 ++ List.filter (fun r => pass12 r && pass3 r) rows).
Proof.
  revert v12 v123. induction rows as [|r rows IH]; intros v12 v123;
    cbn [fold_left List.filter].
  - now rewrite !app_nil_r.
  - rewrite filter_step_eq.
    destruct (pass12 r); cbn [andb].
    + destruct (pass3 r); rewrite IH, <- !app_assoc; reflexivity.
    + apply IH.
Qed.

Lemma filter_filter (p q : row -> bool) (l : list row) :
  List.filter q (List.filter p l) = List.filter (fun r => p r && q r) l.
Proof.
  induction l as [|x l IH]; simpl; [reflexivity|].
  destruct (p x); simpl; [destruct (q x)|]; now rewrite IH.
Qed.

Lemma filter_rows_filter (rows : list row) :
  Fetch.filter_rows rows
  = (List.filter pass12 rows, List.filter pass3 (List.filter pass12 rows)).
Proof.
  unfold Fetch.filter_rows. rewrite filter_rows_from, filter_filter. reflexivity.
Qed.

Lemma filter_sublist (p : row -> bool) (l : list row) :
  List.filter p l `sublist_of` l.
Proof.
  induction l as [|x l IH]; simpl; [constructor|].
  destruct (p x); now constructor.
Qed.

Lemma pass12_spec (r : row) :
  pass12 r = true <->
  (field_str r "AREANM" "" = u "강남구" \/ field_str r "AREANM" "" = u "서초구"
   \/ field_str r "AREANM" "" = u "송파구")
  /\ (field_str r "SVCSTATNM" "" = u "접수중" \/ field_str r "SVCSTATNM" "" = u "안내중").
Proof.
  unfold pass12, Fetch.areas, Fetch.statuses.
  rewrite andb_true_iff, !bool_decide_eq_true, !elem_of_union, !elem_of_singleton.
  tauto.
Qed.

Lemma pass3_spec (r : row) :
  pass3 r = true <->
  substring (u "유아") (field_str r "USETGTINFO" "")
  \/ substring (u "제한없음") (field_str r "USETGTINFO" "")
  \/ substring (u "가족") (field_str r "USETGTINFO" "").
Proof.
  unfold pass3, Fetch.contains_any, Fetch.needles.
  set (t := field_str r "USETGTINFO" "").
  replace (str_or t []) with t by now destruct t.
  cbn [existsb]. rewrite !orb_true_iff, !str_in_spec. intuition discriminate.
Qed.

Lemma pass12_blank (r : row) :
  blank_field r "AREANM" \/ blank_field r "SVCSTATNM" -> pass12 r = false.
Proof.
  intros Hb. apply not_true_is_false. rewrite pass12_spec.
  intros [Ha Hs]. destruct Hb as [Hb | Hb]; apply field_str_blank in Hb;
    rewrite Hb in *; intuition discriminate.
Qed.

Lemma pass3_blank (r : row) : blank_field r "USETGTINFO" -> pass3 r = false.
Proof.
  intros Hb. unfold pass3. rewrite (field_str_blank _ _ Hb). reflexivity.
Qed.

End Filter.

(** C1. [filter_rows] keeps in v12 exactly the records whose area is one of
    강남구, 서초구, 송파구 and whose status is 접수중 or 안내중, and keeps in
    v123 exactly those records of v12 whose usage-target text contains one
    of 유아, 제한없음, 가족 as a substring; a record with area 강남구, status
    접수중 and usage-target 영유아 및 가족 대상 is in both outputs. *)
Theorem filter_rows_spec `{Runtime} (rows : list row) :
  let v12 := (Fetch.filter_rows rows).1 in
  let v123 := (Fetch.filter_rows rows).2 in
  (v12 = List.filter pass12 rows /\ v123 = List.filter pass3 v12)
  /\ (forall r, In r v12 <->
        In r rows
        /\ (field_str r "AREANM" "" = u "강남구"
            \/ field_str r "AREANM" "" = u "서초구"
            \/ field_str r "AREANM" "" = u "송파구")
        /\ (field_str r "SVCSTATNM" "" = u "접수중"
            \/ field_str r "SVCSTATNM" "" = u "안내중"))
  /\ (forall r, In r v123 <->
        In r v12
        /\ (substring (u "유아") (field_str r "USETGTINFO" "")
            \/ substring (u "제한없음") (field_str r "USETGTINFO" "")
            \/ substring (u "가족") (field_str r "USETGTINFO" "")))
  /\ (forall r,
        In r rows ->
        r !! u "AREANM" = Some (PStr (u "강남구")) ->
        r !! u "SVCSTATNM" = Some (PStr (u "접수중")) ->
        r !! u "USETGTINFO" = Some (PStr (u "영유아 및 가족 대상")) ->
        In r v12 /\ In r v123).
Proof.
  cbn zeta. rewrite filter_rows_filter. cbn [fst snd].
  assert (H12 : forall r, In r (List.filter pass12 rows) <->
            In r rows /\ pass12 r = true) by (intros r; apply filter_In).
  assert (H3 : forall r, In r (List.filter pass3 (List.filter pass12 rows)) <->
            In r (List.filter pass12 rows) /\ pass3 r = true)
    by (intros r; apply filter_In).
  split; [split; reflexivity|]. split; [|split].
  - intros r. rewrite H12, pass12_spec. tauto.
  - intros r. rewrite H3, pass3_spec. tauto.
  - intros r Hin Ha Hs Ht.
    assert (Hp : pass12 r = true).
    { apply pass12_spec.
      rewrite (field_str_of_string r "AREANM" "" _ Ha) by discriminate.
      rewrite (field_str_of_string r "SVCSTATNM" "" _ Hs) by discriminate.
      split; left; reflexivity. }
    assert (Hq : pass3 r = true).
    { unfold pass3.
      rewrite (field_str_of_string r "USETGTINFO" "" _ Ht) by discriminate.
      reflexivity. }
    rewrite H3, H12. auto.
Qed.

Lemma filter_rows_spec_witness :
  let r := record "강남구" "접수중" "영유아 및 가족 대상" in
  In r (@Fetch.filter_rows demo_runtime [r]).1
  /\ In r (@Fetch.filter_rows demo_runtime [r]).2.
Proof.
  intros r.
  apply (proj2 (proj2 (proj2 (@filter_rows_spec demo_runtime [r]))) r).
  - left. reflexivity.
  - reflexivity.
  - reflexivity.
  - reflexivity.
Defined.

(** C2, as the code has it. A record whose area or status field is empty
    or missing is in neither output; a record whose usage-target field is
    empty or missing is not in v123 (it is in v12 when its area and status
    pass). *)
Theorem blank_fields_filtered `{Runtime} (rows : list row) (r : row) :
  (blank_field r "AREANM" \/ blank_field r "SVCSTATNM" ->
   ~ In r (Fetch.filter_rows rows).1 /\ ~ In r (Fetch.filter_rows rows).2)
  /\ (blank_field r "USETGTINFO" -> ~ In r (Fetch.filter_rows rows).2).
Proof.
  rewrite filter_rows_filter. cbn [fst snd]. split.
  - intros Hb. apply pass12_blank in Hb.
    assert (Hn : ~ In r (List.filter pass12 rows)).
    { rewrite filter_In. intros [_ Hp]. congruence. }
    split; [exact Hn|]. rewrite filter_In. tauto.
  - intros Hb. apply pass3_blank in Hb. rewrite filter_In.
    intros [_ Hp]. congruence.
Qed.

Lemma blank_fields_filtered_witness :
  let r := record_no_target "" "접수중" in
  let q := record_no_target "강남구" "접수중" in
  (~ In r (@Fetch.filter_rows demo_runtime [r; q]).1
   /\ ~ In r (@Fetch.filter_rows demo_runtime [r; q]).2)
  /\ ~ In q (@Fetch.filter_rows demo_runtime [r; q]).2.
Proof.
  intros r q. split.
  - apply (proj1 (@blank_fields_filtered demo_runtime [r; q] r)).
    left. right. right. reflexivity.
  - apply (proj2 (@blank_fields_filtered demo_runtime [r; q] q)).
    left. reflexivity.
Defined.

(** C2 as stated fails: a record with a passing area and status and no
    usage-target field at all is in the v12 output. *)
Lemma blank_target_in_v12 :
  let r := record_no_target "강남구" "접수중" in
  blank_field r "USETGTINFO" /\ In r (@Fetch.filter_rows demo_runtime [r]).1.
Proof.
  intros r. split.
  - left. reflexivity.
  - left. reflexivity.
Qed.

(** C6. The v123 output is contained in the v12 output, both are
    order-preserving subsequences of the input, and nothing is
    deduplicated: each output is the input filtered by a test on the single
    record, so every occurrence of a passing record is kept. *)
Theorem filter_rows_nested `{Runtime} (rows : list row) :
  let v12 := (Fetch.filter_rows rows).1 in
  let v123 := (Fetch.filter_rows rows).2 in
  (forall r, In r v123 -> In r v12)
  /\ v123 `sublist_of` v12
  /\ v12 `sublist_of` rows
  /\ v12 = List.filter pass12 rows
  /\ v123 = List.filter (fun r => pass12 r && pass3 r) rows.
Proof.
  cbn zeta. rewrite filter_rows_filter. cbn [fst snd].
  split; [|split; [|split; [|split]]].
  - intros r Hr. apply filter_In in Hr. tauto.
  - apply filter_sublist.
  - apply filter_sublist.
  - reflexivity.
  - apply filter_filter.
Qed.

(** A record that passes and occurs twice in the input occurs twice in
    both outputs. *)
Example filter_rows_keeps_duplicates :
  let r := record "송파구" "안내중" "제한없음" in
  @Fetch.filter_rows demo_runtime [r; r] = ([r; r], [r; r]).
Proof. reflexivity. Qed.

(** * The retry loop of [fetch_page] *)

Section Retry.
Variables (net : network) (url : str).

Lemma attempt_body_retry (a : Z) (st : Fetch.retry_state) :
  retryable (net url (Z.to_nat (a - 1))) = true -> a <> Fetch.MAX_RETRIES ->
  exists le,
    Fetch.attempt_body net url a st
    = (Fetch.mk_retry (Fetch.backoff st * 2) le
         (Fetch.log st ++ [EGet url; ESleep (Fetch.backoff st)]),
       Fetch.Continue).
Proof.
  intros Hr Ha. apply Z.eqb_neq in Ha. unfold Fetch.attempt_body.
  destruct (net url (Z.to_nat (a - 1))) as [| | |status body];
    cbn in Hr; try discriminate; rewrite ?Ha.
  1,2: unfold Fetch.sleep_and_double; cbn; rewrite <- app_assoc; eauto.
  unfold is_2xx, is_5xx in Hr.
  destruct ((200 <=? status)%Z && (status <? 300)%Z).
  - destruct body; [discriminate|].
    unfold Fetch.sleep_and_double; cbn; rewrite <- app_assoc; eauto.
  - rewrite Hr.
    unfold Fetch.sleep_and_double; cbn; rewrite <- app_assoc; eauto.
Qed.

Lemma attempt_body_last (st : Fetch.retry_state) :
  retryable (net url 2%nat) = true ->
  exists le c,
    Fetch.attempt_body net url 3 st
    = (Fetch.mk_retry (Fetch.backoff st) le (Fetch.log st ++ [EGet url]), c)
    /\ (c = Fetch.Break /\ le <> None
        \/ exists status, c = Fetch.Raising (RuntimeError (ServerError status url))).
Proof.
  intros Hr. unfold Fetch.attempt_body.
  change (Z.to_nat (3 - 1)) with 2%nat.
  destruct (net url 2%nat) as [| | |status body]; cbn in Hr; try discriminate.
  1,2: cbn; do 2 eexists; split; [reflexivity | left; split; [reflexivity | discriminate]].
  unfold is_2xx, is_5xx in Hr.
  destruct ((200 <=? status)%Z && (status <? 300)%Z).
  - destruct body; [discriminate|]. cbn.
    do 2 eexists; split; [reflexivity | left; split; [reflexivity | discriminate]].
  - rewrite Hr. cbn. do 2 eexists; split; [reflexivity | right; eauto].
Qed.

Lemma attempt_body_stop (a : Z) (st : Fetch.retry_state) :
  retryable (net url (Z.to_nat (a - 1))) = false ->
  exists c,
    Fetch.attempt_body net url a st
    = (Fetch.mk_retry (Fetch.backoff st) (Fetch.last_exc st)
         (Fetch.log st ++ [EGet url]), c)
    /\ (net url (Z.to_nat (a - 1)) = GetOtherError
        /\ c = Fetch.Raising RequestException
        \/ (exists status v,
              net url (Z.to_nat (a - 1)) = Response status (Some v)
              /\ is_2xx status = true /\ c = Fetch.Return v)
        \/ (exists status body,
              net url (Z.to_nat (a - 1)) = Response status body
              /\ is_2xx status = false /\ is_5xx status = false
              /\ c = Fetch.Raising (RuntimeError (HttpError status url)))).
Proof.
  intros Hr. unfold Fetch.attempt_body.
  destruct (net url (Z.to_nat (a - 1))) as [| | |status body];
    cbn in Hr; try discriminate.
  - eexists; split; [reflexivity | left; auto].
  - fold (is_2xx status). fold (is_5xx status).
    destruct (is_2xx status) eqn:E2.
    + destruct body as [v|]; [|discriminate].
      eexists; split; [reflexivity | right; left; eauto].
    + rewrite Hr. eexists; split; [reflexivity | right; right; eauto 10].
Qed.

Lemma retryable_http_error (status : Z) (body : option pyval) :
  is_2xx status = false -> is_5xx status = false ->
  retryable (Response status body) = false.
Proof. intros H2 H5. cbn. now rewrite H2, H5. Qed.

Lemma retryable_success (status : Z) (v : pyval) :
  is_2xx status = true -> retryable (Response status (Some v)) = false.
Proof. intros H2. cbn. now rewrite H2. Qed.

End Retry.
Ltac retry_scenario :=
  (split; [lia|]; split; [reflexivity|]; split; [reflexivity|]);
  intros k Hk Hprev; destruct k as [|[|[|k]]]; try lia;
  repeat split; try lia; try congruence; eauto;
  try (intros; exfalso;
       match goal with
       | E : _ = Response _ _ |- _ =>
           rewrite E in *;
           first [ erewrite retryable_http_error in * by eassumption
                 | erewrite retryable_success in * by eassumption ];
           congruence
       end);
  try (exfalso;
       match goal with
       | P : forall j, (j < _)%nat -> retryable _ = true |- _ =>
           try pose proof (P 0%nat ltac:(lia));
           try pose proof (P 1%nat ltac:(lia));
           congruence
       end).

Ltac stop_scenario Hc :=
  destruct Hc as [[? ->] | [(? & ? & ? & ? & ->) | (? & ? & ? & ? & ? & ->)]];
  cbn; retry_scenario.

(** C7. [fetch_page] makes at most 3 attempts. A connection failure, a
    timeout, a 5xx status or an unparseable 2xx body on attempt 1 or 2 is
    followed by another attempt, after a sleep of 1 and then of 2 time
    units; the same on attempt 3 ends the fetch with a [RuntimeError]. A
    status outside 2xx and 5xx raises a [RuntimeError] on the attempt that
    meets it, with no further attempt; a 2xx response with a parseable body
    is returned. *)
Theorem fetch_page_retries (net : network) (url : str) :
  let tr := (Fetch.fetch_page net url).1 in
  let res := (Fetch.fetch_page net url).2 in
  let n := length (gets tr) in
  (1 <= n <= 3)%nat
  /\ tr = expected_trace url n
  /\ sleeps tr = take (n - 1) [1; 2]
  /\ (forall k, (k < 3)%nat ->
        (forall j, (j < k)%nat -> retryable (net url j) = true) ->
        (k < n)%nat
        /\ (retryable (net url k) = true -> (k < 2)%nat -> (k + 1 < n)%nat)
        /\ (retryable (net url k) = true -> k = 2%nat ->
            n = 3%nat /\ exists why, res = Raise (RuntimeError why))
        /\ (forall status body, net url k = Response status body ->
              is_2xx status = false -> is_5xx status = false ->
              n = S k /\ res = Raise (RuntimeError (HttpError status url)))
        /\ (forall status v, net url k = Response status (Some v) ->
              is_2xx status = true -> n = S k /\ res = Ok v)).
Proof.
  unfold Fetch.fetch_page.
  change (py_range 1 (Fetch.MAX_RETRIES + 1)) with [1; 2; 3]%Z.
  cbn [Fetch.retry_loop].
  pose proof (attempt_body_retry net url 1) as T1.
  pose proof (attempt_body_retry net url 2) as T2.
  pose proof (attempt_body_last net url) as T3.
  pose proof (attempt_body_stop net url 1) as S1.
  pose proof (attempt_body_stop net url 2) as S2.
  pose proof (attempt_body_stop net url 3) as S3.
  change (Z.to_nat (1 - 1)) with 0%nat in *.
  change (Z.to_nat (2 - 1)) with 1%nat in *.
  change (Z.to_nat (3 - 1)) with 2%nat in *.
  pose proof retryable_http_error as HE.
  pose proof retryable_success as HS.
  destruct (retryable (net url 0%nat)) eqn:R0.
  - destruct (T1 (Fetch.mk_retry 1 None []) eq_refl ltac:(discriminate)) as [le1 ->].
    destruct (retryable (net url 1%nat)) eqn:R1.
    + match goal with |- context [Fetch.attempt_body _ _ 2 ?st] =>
        destruct (T2 st eq_refl ltac:(discriminate)) as [le2 ->] end.
      destruct (retryable (net url 2%nat)) eqn:R2.
      * match goal with |- context [Fetch.attempt_body _ _ 3 ?st] =>
          destruct (T3 st eq_refl) as (le3 & c & -> & Hc) end.
        destruct Hc as [[-> Hle] | [status ->]]; cbn; retry_scenario.
      * match goal with |- context [Fetch.attempt_body _ _ 3 ?st] =>
          destruct (S3 st eq_refl) as (c & -> & Hc) end.
        stop_scenario Hc.
    + match goal with |- context [Fetch.attempt_body _ _ 2 ?st] =>
        destruct (S2 st eq_refl) as (c & -> & Hc) end.
      stop_scenario Hc.
  - destruct (S1 (Fetch.mk_retry 1 None []) eq_refl) as (c & -> & Hc).
    stop_scenario Hc.
Qed.

Lemma fetch_page_retries_witness :
  length (gets (Fetch.fetch_page flaky_network (u "page")).1) = 3%nat
  /\ (Fetch.fetch_page flaky_network (u "page")).2
     = Raise (RuntimeError (HttpError 404 (u "page"))).
Proof.
  pose proof (fetch_page_retries flaky_network (u "page")) as Hall.
  cbn zeta in Hall. destruct Hall as (_ & _ & _ & Hk).
  destruct (Hk 2%nat) as (_ & _ & _ & Hhttp & _).
  - lia.
  - intros [|[|j]] Hj; [reflexivity | reflexivity | lia].
  - apply (Hhttp 404%Z None); reflexivity.
Defined.

(** * Truncation *)

Lemma trunc_nonempty (s : str) (n : Z) :
  s <> [] ->
  Compose.trunc s n
  = if (Z.of_nat (length s) <=? n)%Z then s
    else take (Z.to_nat (Z.max 0 (n - 1))) s ++ Compose.ellipsis.
Proof. intros Hs. unfold Compose.trunc. destruct s; [contradiction | reflexivity]. Qed.

Lemma trunc_dash (n : Z) : (1 <= n)%Z -> Compose.trunc (u "-") n = u "-".
Proof.
  intros Hn. rewrite trunc_nonempty by discriminate.
  change (length (u "-")) with 1%nat.
  destruct (Z.leb_spec (Z.of_nat 1) n); [reflexivity | lia].
Qed.

(** C9. For a limit [n >= 1] (the composer uses 10, 19 and 40): a
    non-empty string of length at most [n] is unchanged; a string longer
    than [n] becomes its first [n - 1] characters followed by the one
    ellipsis character, of total length [n]; the empty string, and a
    missing or empty field read by [line_for], is the dash. *)
Theorem trunc_spec `{Runtime} (s : str) (n : Z) :
  (1 <= n)%Z ->
  (s <> [] -> (Z.of_nat (length s) <= n)%Z -> Compose.trunc s n = s)
  /\ ((n < Z.of_nat (length s))%Z ->
      Compose.trunc s n = take (Z.to_nat (n - 1)) s ++ u "…"
      /\ Z.of_nat (length (Compose.trunc s n)) = n
      /\ length (u "…") = 1%nat)
  /\ Compose.trunc [] n = u "-"
  /\ (forall r k, blank_field r k -> Compose.trunc (field_str r k "-") n = u "-").
Proof.
  intros Hn. split; [|split; [|split]].
  - intros Hs Hlen. rewrite trunc_nonempty by exact Hs.
    apply Z.leb_le in Hlen. now rewrite Hlen.
  - intros Hlen.
    assert (Hs : s <> []) by (intros ->; simpl in Hlen; lia).
    rewrite trunc_nonempty by exact Hs.
    apply Z.leb_gt in Hlen as Hlt. rewrite Hlt.
    rewrite Z.max_r by lia. split; [reflexivity|]. split; [|reflexivity].
    rewrite length_app, length_take. change (length Compose.ellipsis) with 1%nat.
    lia.
  - change (Compose.trunc [] n) with (Compose.trunc (u "-") n).
    now apply trunc_dash.
  - intros r k Hb.
    assert (Hf : field_str r k "-" = u "-").
    { unfold field_str, dict_get, py_or.
      destruct Hb as [Hk | [Hk | Hk]]; rewrite Hk; reflexivity. }
    rewrite Hf. now apply trunc_dash.
Qed.

Lemma trunc_spec_witness :
  Compose.trunc (u "강남구청 평생학습관 강좌") 10 = u "강남구청 평생학습…"
  /\ Z.of_nat (length (Compose.trunc (u "강남구청 평생학습관 강좌") 10)) = 10%Z.
Proof.
  pose proof (@trunc_spec demo_runtime (u "강남구청 평생학습관 강좌") 10%Z ltac:(lia))
    as (_ & Hlong & _).
  destruct Hlong as (Heq & Hlen & _).
  - vm_compute. reflexivity.
  - split; [rewrite Heq; reflexivity | exact Hlen].
Defined.

(** * Timestamp parsing *)

(** C4. On every string [parse_dt] (the same in both files) returns, and
    never raises: [None] for the empty string; otherwise the result of the
    first of the five formats, tried in the order
    [%Y-%m-%d %H:%M:%S.%f], [%Y-%m-%d %H:%M:%S], [%Y-%m-%d],
    [%Y%m%d%H%M%S], [%Y%m%d], that [strptime] accepts on the stripped
    string; [None] when it accepts none. *)
Theorem parse_dt_spec `{Runtime} (s : str) :
  let t := strip s in
  let f1 := u "%Y-%m-%d %H:%M:%S.%f" in
  let f2 := u "%Y-%m-%d %H:%M:%S" in
  let f3 := u "%Y-%m-%d" in
  let f4 := u "%Y%m%d%H%M%S" in
  let f5 := u "%Y%m%d" in
  Fetch.parse_dt (PStr s) = Ok (Compose.parse_dt s)
  /\ (s = [] -> Compose.parse_dt s = None)
  /\ (s <> [] ->
      (forall d, strptime t f1 = Some d -> Compose.parse_dt s = Some d)
      /\ (strptime t f1 = None ->
          (forall d, strptime t f2 = Some d -> Compose.parse_dt s = Some d)
          /\ (strptime t f2 = None ->
              (forall d, strptime t f3 = Some d -> Compose.parse_dt s = Some d)
              /\ (strptime t f3 = None ->
                  (forall d, strptime t f4 = Some d -> Compose.parse_dt s = Some d)
                  /\ (strptime t f4 = None ->
                      (forall d, strptime t f5 = Some d ->
                                 Compose.parse_dt s = Some d)
                      /\ (strptime t f5 = None ->
                          Compose.parse_dt s = None)))))).
Proof.
  cbn zeta. split; [|split].
  - destruct s; reflexivity.
  - intros ->. reflexivity.
  - intros Hs. destruct s as [|c s]; [contradiction|].
    unfold Compose.parse_dt, Compose.fmts. cbn [try_formats].
    repeat match goal with
           | |- _ /\ _ => split
           | |- forall d, _ = Some d -> _ => intros d ->; reflexivity
           | |- _ = None -> _ => intros ->
           end.
    reflexivity.
Qed.

Lemma parse_dt_spec_witness :
  @Compose.parse_dt demo_runtime (u " 2025-08-25 ")
  = Some (mk_datetime 2025 8 25 0 0 0 0).
Proof.
  pose proof (@parse_dt_spec demo_runtime (u " 2025-08-25 ")) as Hall.
  cbn zeta in Hall. destruct Hall as (_ & _ & Hfirst).
  destruct Hfirst as (_ & Hsecond); [discriminate|].
  destruct Hsecond as (_ & Hthird); [reflexivity|].
  destruct Hthird as (Hdate & _); [reflexivity|].
  apply Hdate. reflexivity.
Defined.

(** * The sort key *)

(** C5, where the code departs from it. In [fetch_reservations.py] the
    sort key of a record whose reception-begin field is a true value that
    is not a string (here the JSON number 20250825) is not a timestamp:
    [parse_dt] calls [strip] on the number and raises, and so does
    [sorted]. The copy of [sort_key] in [compose_email.py] wraps the field
    in [str] and parses the same record. *)
Theorem fetch_sort_key_raises_on_number `{Runtime} :
  let r : row := {[ u "RCPTBGNDT" := PInt 20250825 ]} in
  Fetch.sort_key r = Raise AttributeError
  /\ py_sorted Fetch.sort_key [r] = Raise AttributeError
  /\ Compose.sort_key r
     = match Compose.parse_dt (u "20250825") with
       | Some d => d
       | None => datetime_max
       end.
Proof. repeat split. Qed.

(** * Ordering and sorting *)

Lemma lex_ltb_irrefl (a : list N) : lex_ltb a a = false.
Proof.
  induction a as [|x a IH]; simpl; [reflexivity|].
  rewrite N.ltb_irrefl, N.eqb_refl, IH. reflexivity.
Qed.

Lemma lex_ltb_trans (a b c : list N) :
  lex_ltb a b = true -> lex_ltb b c = true -> lex_ltb a c = true.
Proof.
  revert b c. induction a as [|x a IH]; intros [|y b] [|z c]; simpl;
    try discriminate; try reflexivity.
  rewrite !orb_true_iff, !andb_true_iff, !N.ltb_lt, !N.eqb_eq.
  intros [Hxy | [-> Hab]] [Hyz | [-> Hbc]].
  - left. lia.
  - left. exact Hxy.
  - left. exact Hyz.
  - right. split; [reflexivity | eauto].
Qed.

Lemma lex_ltb_total (a b : list N) :
  lex_ltb a b = false -> lex_ltb b a = false -> a = b.
Proof.
  revert b. induction a as [|x a IH]; intros [|y b]; simpl;
    try discriminate; try reflexivity.
  rewrite !orb_false_iff, !andb_false_iff, !N.ltb_ge, !N.eqb_neq.
  intros [Hyx Hab] [Hxy Hba].
  assert (x = y) by lia. subst y.
  f_equal. apply IH; [destruct Hab | destruct Hba]; congruence.
Qed.

Lemma dt_leb_refl (a : datetime) : dt_leb a a = true.
Proof. unfold dt_leb, dt_ltb. now rewrite lex_ltb_irrefl. Qed.

Lemma dt_leb_total (a b : datetime) : dt_leb a b = false -> dt_leb b a = true.
Proof.
  unfold dt_leb, dt_ltb. rewrite negb_false_iff, negb_true_iff. intros Hba.
  destruct (lex_ltb (dt_tuple a) (dt_tuple b)) eqn:Hab; [|reflexivity].
  pose proof (lex_ltb_trans _ _ _ Hab Hba) as Haa.
  now rewrite lex_ltb_irrefl in Haa.
Qed.

Lemma dt_leb_trans (a b c : datetime) :
  dt_leb a b = true -> dt_leb b c = true -> dt_leb a c = true.
Proof.
  unfold dt_leb, dt_ltb. rewrite !negb_true_iff. intros Hba Hcb.
  destruct (lex_ltb (dt_tuple c) (dt_tuple a)) eqn:Hca; [|reflexivity].
  destruct (lex_ltb (dt_tuple a) (dt_tuple b)) eqn:Hab.
  - pose proof (lex_ltb_trans _ _ _ Hca Hab). congruence.
  - pose proof (lex_ltb_total _ _ Hab Hba) as Heq. rewrite Heq in Hca. congruence.
Qed.

Lemma dt_leb_max (d : datetime) : dt_valid d -> dt_leb d datetime_max = true.
Proof.
  unfold dt_valid, dt_leb, dt_ltb. intros (Hy & Hm & Hd & Hh & Hmi & Hs & Hu).
  apply negb_true_iff. cbn.
  repeat match goal with
         | |- context [(?c <? ?x)] =>
             replace (c <? x) with false by (symmetry; apply N.ltb_ge; assumption)
         end.
  cbn. now rewrite !andb_false_r.
Qed.

Section Sorting.
Context {A : Type}.
Implicit Types (x y : datetime * A) (l : list (datetime * A)).

Lemma insert_by_perm x l : Permutation (insert_by x l) (x :: l).
Proof.
  induction l as [|y l IH]; simpl; [reflexivity|].
  destruct (dt_ltb (fst y) (fst x)); [|reflexivity].
  rewrite IH. apply perm_swap.
Qed.

Lemma sort_keyed_perm l : Permutation (sort_keyed l) l.
Proof.
  induction l as [|x l IH]; simpl; [reflexivity|].
  rewrite insert_by_perm. now constructor.
Qed.

Lemma insert_by_sorted x l :
  StronglySorted key_le l -> StronglySorted key_le (insert_by x l).
Proof.
  induction 1 as [|y l Hl IH Hy]; simpl.
  - repeat constructor.
  - destruct (dt_ltb (fst y) (fst x)) eqn:Hlt.
    + constructor; [exact IH|].
      rewrite (insert_by_perm x l). constructor; [|exact Hy].
      apply dt_leb_total. unfold dt_leb. now rewrite Hlt.
    + assert (Hxy : key_le x y) by (unfold key_le, dt_leb; now rewrite Hlt).
      constructor; [now constructor|].
      constructor; [exact Hxy|].
      eapply Forall_impl; [exact Hy|].
      intros z Hz. unfold key_le in *. eapply dt_leb_trans; eassumption.
Qed.

Lemma sort_keyed_sorted l : StronglySorted key_le (sort_keyed l).
Proof.
  induction l as [|x l IH]; simpl; [constructor | now apply insert_by_sorted].
Qed.

(** Stability: the elements of any one key keep their input order. *)
Lemma insert_by_stable (k : datetime) x l :
  List.filter (fun y => same_key (fst y) k) (insert_by x l)
  = List.filter (fun y => same_key (fst y) k) (x :: l).
Proof.
  induction l as [|y l IH]; [reflexivity|].
  cbn [insert_by]. destruct (dt_ltb (fst y) (fst x)) eqn:Hlt; [|reflexivity].
  cbn [List.filter] in *. rewrite IH.
  destruct (same_key (fst x) k) eqn:Hx; [|reflexivity].
  destruct (same_key (fst y) k) eqn:Hy; [|reflexivity].
  exfalso. unfold same_key, dt_ltb in *.
  rewrite andb_true_iff, !negb_true_iff in Hx, Hy.
  destruct Hx as [Hxk Hkx], Hy as [Hyk Hky].
  rewrite (lex_ltb_total _ _ Hxk Hkx), <- (lex_ltb_total _ _ Hyk Hky) in Hlt.
  now rewrite lex_ltb_irrefl in Hlt.
Qed.

Lemma sort_keyed_stable (k : datetime) l :
  List.filter (fun y => same_key (fst y) k) (sort_keyed l)
  = List.filter (fun y => same_key (fst y) k) l.
Proof.
  induction l as [|x l IH]; [reflexivity|].
  cbn [sort_keyed]. rewrite insert_by_stable. cbn [List.filter]. now rewrite IH.
Qed.

Lemma sort_keyed_length l : length (sort_keyed l) = length l.
Proof. apply Permutation_length, sort_keyed_perm. Qed.

End Sorting.

(** * Decimal rendering *)

Lemma number_uint_acc (d : Decimal.uint) (acc : positive) :
  number (Npos acc) (uint_chars d) = Some (Npos (Pos.of_uint_acc d acc)).
Proof.
  revert acc. induction d as [|d IH|d IH|d IH|d IH|d IH|d IH|d IH|d IH|d IH|d IH];
    intros acc; cbn [uint_chars number Pos.of_uint_acc]; [reflexivity|..];
    cbn [digit N.leb N.compare Pos.compare Pos.compare_cont andb N.sub];
    rewrite <- IH; f_equal; lia.
Qed.

Lemma number_uint (d : Decimal.uint) :
  number 0 (uint_chars d) = Some (Pos.of_uint d).
Proof.
  induction d as [|d IH|d IH|d IH|d IH|d IH|d IH|d IH|d IH|d IH|d IH];
    cbn [uint_chars number Pos.of_uint]; [reflexivity | exact IH |..];
    apply number_uint_acc.
Qed.

(** [str] of a non-negative integer consists of its decimal digits. *)
Lemma str_of_Z_digits (n : nat) : number 0 (str_of_Z (Z.of_nat n)) = Some (N.of_nat n).
Proof.
  unfold str_of_Z. destruct (Z.ltb_spec (Z.of_nat n) 0); [lia|].
  rewrite number_uint. change (Pos.of_uint ?d) with (N.of_uint d).
  rewrite DecimalN.Unsigned.of_to. f_equal. lia.
Qed.

(** * The composer's sections *)

Section Sections.
Context `{Runtime}.

Lemma keyed_sorted_snd (l : list (datetime * row)) :
  StronglySorted key_le l ->
  Forall (fun p => fst p = Compose.sort_key (snd p)) l ->
  StronglySorted by_sort_key (List.map snd l).
Proof.
  induction 1 as [|p l Hl IH Hp]; intros Hk; simpl; [constructor|].
  apply Forall_cons in Hk as [Hkp Hkl].
  constructor; [now apply IH|].
  apply Forall_map. rewrite Forall_forall in *.
  intros q Hq. unfold by_sort_key. rewrite <- Hkp, <- (Hkl q Hq).
  now apply Hp.
Qed.

Lemma keyed_filter_snd (P : datetime -> bool) (l : list (datetime * row)) :
  Forall (fun p => fst p = Compose.sort_key (snd p)) l ->
  List.filter (fun r => P (Compose.sort_key r)) (List.map snd l)
  = List.map snd (List.filter (fun p => P (fst p)) l).
Proof.
  induction 1 as [|p l Hp Hl IH]; simpl; [reflexivity|].
  rewrite <- Hp. destruct (P (fst p)); simpl; now rewrite IH.
Qed.

Lemma keys_attached (rows : list row) :
  Forall (fun p => fst p = Compose.sort_key (snd p))
         (List.map (fun r => (Compose.sort_key r, r)) rows).
Proof. apply Forall_map, Forall_forall. reflexivity. Qed.

Lemma sorted_perm (rows : list row) : Permutation (Compose.sorted rows) rows.
Proof.
  unfold Compose.sorted. rewrite sort_keyed_perm, map_map. simpl.
  now rewrite map_id.
Qed.

Lemma sorted_ordered (rows : list row) :
  StronglySorted by_sort_key (Compose.sorted rows).
Proof.
  apply keyed_sorted_snd; [apply sort_keyed_sorted|].
  eapply Permutation_Forall; [symmetry; apply sort_keyed_perm | apply keys_attached].
Qed.

Lemma sorted_stable (k : datetime) (rows : list row) :
  List.filter (fun r => same_key (Compose.sort_key r) k) (Compose.sorted rows)
  = List.filter (fun r => same_key (Compose.sort_key r) k) rows.
Proof.
  unfold Compose.sorted.
  rewrite (keyed_filter_snd (fun d => same_key d k)).
  - rewrite sort_keyed_stable.
    rewrite <- (keyed_filter_snd (fun d => same_key d k)) by apply keys_attached.
    rewrite map_map. simpl. now rewrite map_id.
  - eapply Permutation_Forall; [symmetry; apply sort_keyed_perm | apply keys_attached].
Qed.

End Sections.

(** C10. A section starts with the title, an empty line, the count line
    총 N건 with N the full length of the list, and an empty line. For an
    empty list the fixed sentence follows; otherwise one line for each of
    the first 10 records of the list sorted by its sort key, so
    [min 10 N] record lines, and for N > 10 the count N exceeds the 10
    record lines rendered. *)
Theorem section_count_and_lines `{Runtime} (title : str) (rows : list row) :
  let out := Compose.section_out title rows in
  Compose.section title rows = join [10] out
  /\ take 4 out
     = [title; []; u "총 " ++ str_of_Z (Z.of_nat (length rows)) ++ u "건"; []]
  /\ number 0 (str_of_Z (Z.of_nat (length rows))) = Some (N.of_nat (length rows))
  /\ (rows = [] -> drop 4 out = [u "해당 조건에 맞는 항목이 없습니다."])
  /\ (rows <> [] ->
      drop 4 out = List.map Compose.line_for (take 10 (Compose.sorted rows))
      /\ length (drop 4 out) = Nat.min 10 (length rows))
  /\ (10 < length rows -> length (drop 4 out) = 10%nat
                          /\ length (drop 4 out) < length rows)%nat
  /\ Permutation (Compose.sorted rows) rows
  /\ StronglySorted by_sort_key (Compose.sorted rows).
Proof.
  cbn zeta.
  assert (Hlen : rows <> [] ->
            length (drop 4 (Compose.section_out title rows))
            = Nat.min 10 (length rows)).
  { intros Hr. unfold Compose.section_out. destruct rows as [|r rows]; [contradiction|].
    cbv zeta. cbn [app drop]. rewrite drop_0, length_map, length_take.
    now rewrite (Permutation_length (sorted_perm (r :: rows))). }
  split; [reflexivity|].
  split; [unfold Compose.section_out; destruct rows; reflexivity|].
  split; [apply str_of_Z_digits|].
  split; [intros ->; reflexivity|].
  split.
  { intros Hr. split; [|now apply Hlen].
    unfold Compose.section_out. destruct rows; [contradiction | reflexivity]. }
  split.
  { intros Hlong. rewrite Hlen by (intros ->; simpl in Hlong; lia). lia. }
  split; [apply sorted_perm | apply sorted_ordered].
Qed.

Lemma section_count_and_lines_witness :
  let rows := repeat (record "강남구" "접수중" "가족") 12 in
  length (drop 4 (@Compose.section_out demo_runtime (u "[v12]") rows)) = 10%nat
  /\ (length (drop 4 (@Compose.section_out demo_runtime (u "[v12]") rows))
      < length rows)%nat.
Proof.
  intros rows.
  pose proof (@section_count_and_lines demo_runtime (u "[v12]") rows) as Hall.
  cbn zeta in Hall. destruct Hall as (_ & _ & _ & _ & _ & Hlong & _).
  apply Hlong. vm_compute. lia.
Defined.

(** * The fetch loops of [main] *)

Lemma net_events_quiet (ev : list event) :
  Forall net_event ev ->
  page_fetches ev = [] /\ files_written ev = []
  /\ forall start stop, ~ In (EFetchPage start stop) ev.
Proof.
  induction 1 as [|e ev He Hev (IH1 & IH2 & IH3)]; [now repeat split|].
  unfold page_fetches, files_written in *.
  destruct e; try contradiction; cbn; rewrite ?IH1, ?IH2;
    (split; [reflexivity|]; split; [reflexivity|]);
    intros a b [Hx | Hx]; try discriminate; now apply (IH3 a b).
Qed.

Lemma attempt_body_events (net : network) (url : str) (a : Z) (st : Fetch.retry_state) :
  Forall net_event (Fetch.log st) ->
  Forall net_event (Fetch.log (Fetch.attempt_body net url a st).1).
Proof.
  intros Hst. unfold Fetch.attempt_body, Fetch.sleep_and_double, Fetch.set_last_exc.
  destruct (net url (Z.to_nat (a - 1))) as [| | |status [v|]];
    repeat match goal with
           | |- context [if ?b then _ else _] => destruct b
           end;
    cbn; rewrite ?Forall_app; repeat split; try exact Hst; repeat constructor.
Qed.

Lemma retry_loop_events (net : network) (url : str) (attempts : list Z)
  (st : Fetch.retry_state) :
  Forall net_event (Fetch.log st) ->
  Forall net_event (Fetch.log (Fetch.retry_loop net url attempts st).1).
Proof.
  revert st. induction attempts as [|a rest IH]; intros st Hst; [exact Hst|].
  cbn [Fetch.retry_loop].
  pose proof (attempt_body_events net url a st Hst) as Hbody.
  destruct (Fetch.attempt_body net url a st) as [st' c].
  destruct c; try exact Hbody. now apply IH.
Qed.

Lemma fetch_page_events (net : network) (url : str) :
  Forall net_event (Fetch.fetch_page net url).1.
Proof.
  unfold Fetch.fetch_page.
  pose proof (retry_loop_events net url (py_range 1 (Fetch.MAX_RETRIES + 1))
                (Fetch.mk_retry 1 None []) (List.Forall_nil _)) as Hloop.
  destruct (Fetch.retry_loop _ _ _ _) as [st [r|]]; exact Hloop.
Qed.

Lemma files_written_app (a b : list event) :
  files_written (a ++ b) = files_written a ++ files_written b.
Proof. apply omap_app. Qed.

Lemma page_fetches_app (a b : list event) :
  page_fetches (a ++ b) = page_fetches a ++ page_fetches b.
Proof. apply omap_app. Qed.


Lemma page_fetches_marker (start stop : Z) (ev : list event) :
  page_fetches (EFetchPage start stop :: ev) = (start, stop) :: page_fetches ev.
Proof. reflexivity. Qed.

Lemma files_written_marker (start stop : Z) (ev : list event) :
  files_written (EFetchPage start stop :: ev) = files_written ev.
Proof. reflexivity. Qed.

(** One page fetch, as the loops log it. *)
Lemma page_step (net : network) (api_key : str) (start stop : Z) :
  let ev := EFetchPage start stop
            :: (Fetch.fetch_page net (Fetch.build_url api_key start stop)).1 in
  files_written ev = []
  /\ page_fetches ev = [(start, stop)]
  /\ (fetch_failed net api_key ev
      <-> exists e, (Fetch.fetch_page net (Fetch.build_url api_key start stop)).2
                    = Raise e).
Proof.
  cbn zeta.
  destruct (net_events_quiet _ (fetch_page_events net (Fetch.build_url api_key start stop)))
    as (Hp & Hf & Hno).
  split; [now rewrite files_written_marker|].
  split; [now rewrite page_fetches_marker, Hp|].
  split.
  - intros (s & t & e & [Hin | Hin] & Hr).
    + injection Hin as <- <-. eauto.
    + now apply Hno in Hin.
  - intros [e He]. exists start, stop, e. split; [now left | exact He].
Qed.

Section Loops.
Context `{Runtime}.
Variables (net : network) (api_key : str).



End Loops.

(** * [main] of the fetcher *)

Section FetchMain.
Context `{Runtime}.


Lemma page_one (net : network) (api_key : str) :
  page_result net api_key 1
  = (Fetch.fetch_page net (Fetch.build_url api_key 1 Fetch.PAGE_SIZE)).2.
Proof. reflexivity. Qed.

End FetchMain.




(** * Runs of the fetcher *)

Lemma py_range_step (a b : Z) : (a < b)%Z -> py_range a b = a :: py_range (a + 1) b.
Proof.
  intros Hab. unfold py_range.
  replace (Z.to_nat (b - a)) with (S (Z.to_nat (b - (a + 1)))) by lia.
  cbn [seq List.map]. rewrite <- seq_shift, map_map. f_equal; [lia|].
  apply map_ext. intros i. lia.
Qed.

Section FetchRuns.
Context `{Runtime}.
Variables (net : network) (api_key : str).

Lemma fetch_known_step (p : Z) (rest : list Z) (all_rows : list row) (tr : list event) :
  Fetch.fetch_known net api_key (p :: rest) all_rows tr
  = let tr' := tr ++ EFetchPage (Fetch.page_bounds p).1 (Fetch.page_bounds p).2
                     :: (Fetch.fetch_page net
                           (Fetch.build_url api_key (Fetch.page_bounds p).1
                              (Fetch.page_bounds p).2)).1 in
    match page_result net api_key p with
    | Raise _ => (tr', None)
    | Ok data =>
        match (Fetch.extract_payload data).2 with
        | [] => (tr', Some all_rows)
        | rows => Fetch.fetch_known net api_key rest (all_rows ++ rows) tr'
        end
    end.
Proof.
  cbn [Fetch.fetch_known]. unfold page_result, Fetch.page_bounds. cbn [fst snd].
  destruct (Fetch.fetch_page net _) as [ev r]. reflexivity.
Qed.

Lemma fetch_unknown_step (fuel : nat) (p : Z) (all_rows : list row) (tr : list event) :
  Fetch.fetch_unknown (S fuel) net api_key p all_rows tr
  = let tr' := tr ++ EFetchPage (Fetch.page_bounds p).1 (Fetch.page_bounds p).2
                     :: (Fetch.fetch_page net
                           (Fetch.build_url api_key (Fetch.page_bounds p).1
                              (Fetch.page_bounds p).2)).1 in
    match page_result net api_key p with
    | Raise _ => Some (tr', None)
    | Ok data =>
        match (Fetch.extract_payload data).2 with
        | [] => Some (tr', Some all_rows)
        | rows => Fetch.fetch_unknown fuel net api_key (p + 1) (all_rows ++ rows) tr'
        end
    end.
Proof.
  cbn [Fetch.fetch_unknown]. unfold page_result, Fetch.page_bounds. cbn [fst snd].
  destruct (Fetch.fetch_page net _) as [ev r]. reflexivity.
Qed.



End FetchRuns.

Section FetchExit.
Context `{Runtime}.
Variables (fuel : nat) (dotenv : dotenv_file) (environ env' : gmap str str)
  (net : network).
Hypothesis Hload : _load_env_from_dotenv dotenv environ = Ok env'.


Hypothesis Hkey : effective_key env' <> [].

Lemma main_unfold :
  Fetch.main fuel dotenv environ net
  = let api_key := effective_key env' in
    let tr1 := EFetchPage 1 Fetch.PAGE_SIZE
               :: (Fetch.fetch_page net (Fetch.build_url api_key 1 Fetch.PAGE_SIZE)).1 in
    match page_result net api_key 1 with
    | Raise _ => Some (tr1, Exit 3)
    | Ok data =>
        let total_count := (Fetch.extract_payload data).1 in
        let first_rows := (Fetch.extract_payload data).2 in
        let fetched :=
          if (total_count >? 0)%Z then
            Some (Fetch.fetch_known net api_key
                    (py_range 2 ((total_count + Fetch.PAGE_SIZE - 1) / Fetch.PAGE_SIZE + 1))
                    first_rows tr1)
          else Fetch.fetch_unknown fuel net api_key 2 first_rows tr1 in
        match fetched with
        | None => None
        | Some (tr, None) => Some (tr, Exit 3)
        | Some (tr, Some all_rows) => Some (Fetch.finish tr all_rows)
        end
    end.
Proof.
  unfold Fetch.main. rewrite Hload. fold (effective_key env').
  rewrite bool_decide_eq_false_2 by exact Hkey. cbv zeta.
  rewrite page_one.
  destruct (Fetch.fetch_page net _) as [ev1 r1]. cbn [fst snd].
  destruct r1 as [data|e]; [|reflexivity].
  destruct (Fetch.extract_payload data) as [total rows]. reflexivity.
Qed.





End FetchExit.

(** * [main] of the composer *)

Lemma only_dicts_filter (l : list pyval) :
  List.map PDict (only_dicts l) = List.filter is_dict l.
Proof.
  unfold only_dicts. induction l as [|v l IH]; [reflexivity|].
  destruct v; cbn; try exact IH. now rewrite <- IH.
Qed.



Section ComposeExit.
Context `{Runtime}.
Variables (dotenv : dotenv_file) (environ env' : gmap str str)
  (fs : str -> Compose.file_read).
Hypothesis Hload : _load_env_from_dotenv dotenv environ = Ok env'.



End ComposeExit.

(** * Exit codes *)



(** A run in which the third page fails on all three attempts ends with
    code 3 and writes nothing, although two pages were fetched. *)
Example third_page_fails_exit_3 :
  let net : network := fun url _ =>
    if bool_decide (url = Fetch.build_url (u "key") 2001 3000)
    then Response 503 None
    else Response 200 (Some (page_body 2500 [record "강남구" "접수중" "가족"])) in
  option_map (fun r => (page_fetches r.1, files_written r.1, r.2))
    (@Fetch.main demo_runtime 0 NoFile {[ u "SEOUL_API_KEY" := u "key" ]} net)
  = Some ([(1, 1000); (1001, 2000); (2001, 3000)]%Z, [], Exit 3).
Proof. vm_compute. reflexivity. Qed.

(** A successful run ends with code 0 after writing the four files. *)
Example success_exit_0 :
  option_map (fun r => (files_written r.1, r.2))
    (@Fetch.main demo_runtime 0 NoFile {[ u "SEOUL_API_KEY" := u "key" ]}
       (steady_network 2500 [record "강남구" "접수중" "가족"]))
  = Some (output_files, Exit 0).
Proof. vm_compute. reflexivity. Qed.

(** * The sort key on textual records *)

Section TextualKeys.
Context `{Runtime}.

(** On a field that is missing, null or a string, the fetcher's
    [parse_dt] call agrees with the composer's. *)
Lemma fetch_parse_text (r : row) (k : string) :
  text_field r k ->
  Fetch.parse_dt (py_or (dict_get r (u k)) (PStr []))
  = Ok (Compose.parse_dt (field_str r k "")).
Proof.
  unfold field_str, dict_get, py_or.
  intros [Hk | [Hk | [s Hk]]]; rewrite Hk; try reflexivity.
  destruct s; reflexivity.
Qed.

Lemma fetch_sort_key_text (r : row) :
  text_field r "RCPTBGNDT" -> text_field r "SVCOPNBGNDT" ->
  Fetch.sort_key r = Ok (Compose.sort_key r).
Proof.
  intros H1 H2. unfold Fetch.sort_key, Compose.sort_key.
  rewrite (fetch_parse_text r "RCPTBGNDT" H1). cbn [bind].
  destruct (Compose.parse_dt (field_str r "RCPTBGNDT" "")); [reflexivity|].
  rewrite (fetch_parse_text r "SVCOPNBGNDT" H2). cbn [bind].
  now destruct (Compose.parse_dt (field_str r "SVCOPNBGNDT" "")).
Qed.

(** On such records [sorted(all_rows, key=sort_key)] does not raise and is
    the stable sort by the composer's key. *)
Lemma py_sorted_text (rows : list row) :
  Forall (fun r => text_field r "RCPTBGNDT" /\ text_field r "SVCOPNBGNDT") rows ->
  py_sorted Fetch.sort_key rows = Ok (Compose.sorted rows).
Proof.
  intros Hrows. unfold py_sorted, Compose.sorted.
  assert (Hk : keyed Fetch.sort_key rows
               = Ok (List.map (fun r => (Compose.sort_key r, r)) rows)).
  { induction Hrows as [|r rows [H1 H2] _ IH]; [reflexivity|].
    cbn [keyed List.map]. rewrite (fetch_sort_key_text r H1 H2). cbn [bind].
    now rewrite IH. }
  now rewrite Hk.
Qed.

(** The key is the first timestamp that parses, else the sentinel. *)
Lemma compose_sort_key_cases (r : row) :
  Compose.sort_key r
  = match Compose.parse_dt (field_str r "RCPTBGNDT" "") with
    | Some d => d
    | None => default datetime_max (Compose.parse_dt (field_str r "SVCOPNBGNDT" ""))
    end.
Proof.
  unfold Compose.sort_key.
  destruct (Compose.parse_dt (field_str r "RCPTBGNDT" "")); [reflexivity|].
  now destruct (Compose.parse_dt (field_str r "SVCOPNBGNDT" "")).
Qed.

(** Whatever follows a record with the sentinel key in the sorted list has
    a key that is not below the sentinel. *)
Lemma sentinel_sorts_last (rows l1 l2 : list row) (r : row) :
  Compose.sorted rows = l1 ++ r :: l2 ->
  Compose.sort_key r = datetime_max ->
  Forall (fun q => dt_leb datetime_max (Compose.sort_key q) = true) l2.
Proof.
  intros Hsplit Hr. pose proof (sorted_ordered rows) as Hs. rewrite Hsplit in Hs.
  apply StronglySorted_app_1_r in Hs. apply StronglySorted_inv in Hs as [_ Hl2].
  unfold by_sort_key in Hl2. now rewrite Hr in Hl2.
Qed.

End TextualKeys.

(** A page that carries the record above makes the fetcher die of the
    uncaught exception, after the page is fetched and before any file is
    written. *)
Example numeric_date_stops_fetcher :
  let r : row := {[ u "RCPTBGNDT" := PInt 20250825 ]} in
  option_map (fun x => (page_fetches x.1, files_written x.1, x.2))
    (@Fetch.main demo_runtime 0 NoFile {[ u "SEOUL_API_KEY" := u "key" ]}
       (steady_network 1 [r]))
  = Some ([(1, 1000)%Z], [], Uncaught AttributeError).
Proof. vm_compute. reflexivity. Qed.

(** * The compact projection *)

Section Compact.
Context `{Runtime}.

(** A compact record holds, under each of the eleven names, the text of
    the field it was projected from. *)
Lemma compact_lookup (r : row) (k : string) :
  In k Fetch.COMPACT_FIELDS ->
  Fetch.to_compact_dict (Fetch.from_dict r) !! u k = Some (PStr (field_str r k "")).
Proof.
  unfold Fetch.COMPACT_FIELDS. cbn [In].
  intros Hk. repeat destruct Hk as [<- | Hk]; try reflexivity. contradiction.
Qed.

(** Every field of a compact record is a string or absent. *)
Lemma compact_text (r : row) (k : string) :
  text_field (Fetch.to_compact_dict (Fetch.from_dict r)) k.
Proof.
  unfold text_field.
  destruct (Fetch.to_compact_dict (Fetch.from_dict r) !! u k) as [v|] eqn:Hv;
    [|now left].
  right. right. unfold Fetch.to_compact_dict in Hv.
  apply elem_of_list_to_map_2 in Hv. rewrite list_elem_of_In in Hv. cbn [In] in Hv.
  repeat destruct Hv as [Hv | Hv]; try (injection Hv as _ <-; eauto). contradiction.
Qed.

(** So the second sort of [main], on the compact v12 list, cannot raise. *)
Lemma csv_sort_total (rows : list row) :
  py_sorted Fetch.sort_key (Fetch.project_compact rows)
  = Ok (Compose.sorted (Fetch.project_compact rows)).
Proof.
  apply py_sorted_text. unfold Fetch.project_compact.
  apply Forall_map, Forall_forall. intros r _. split; apply compact_text.
Qed.

End Compact.

(** * Further properties of the code *)

(** * Stripping *)

Section Strip.
Variable f : N -> bool.




(** What [lstrip_by] removes is a run of matching characters, and what it
    leaves is empty or starts with a character that does not match. *)
Lemma lstrip_by_split (s : str) :
  exists a, s = a ++ lstrip_by f s /\ Forall (fun c => f c = true) a
            /\ (lstrip_by f s = [] \/ exists c t, lstrip_by f s = c :: t /\ f c = false).
Proof.
  induction s as [|c s (a & Hs & Ha & Hhead)].
  - exists []. repeat split; auto.
  - cbn. destruct (f c) eqn:Hc.
    + exists (c :: a). split; [cbn; now rewrite <- Hs|]. split; [now constructor | exact Hhead].
    + exists []. split; [reflexivity|]. split; [constructor | right; eauto].
Qed.

Lemma lstrip_by_fixed (c : N) (t : str) : f c = false -> lstrip_by f (c :: t) = c :: t.
Proof. intros Hc. cbn. now rewrite Hc. Qed.


(** The result of [strip_by] is a part of its argument. *)
Lemma strip_by_infix (s : str) : exists a b, s = a ++ strip_by f s ++ b.
Proof.
  unfold strip_by. destruct (lstrip_by_split s) as (a & Hs & _).
  destruct (lstrip_by_split (rev (lstrip_by f s))) as (b & Hr & _).
  exists a, (rev b). rewrite <- rev_app_distr, <- Hr, rev_involutive. exact Hs.
Qed.

Lemma lstrip_by_idem (s : str) : lstrip_by f (lstrip_by f s) = lstrip_by f s.
Proof.
  destruct (lstrip_by_split s) as (_ & _ & _ & [-> | (c & t & -> & Hc)]);
    [reflexivity | now apply lstrip_by_fixed].
Qed.

Lemma strip_by_idem (s : str) : strip_by f (strip_by f s) = strip_by f s.
Proof.
  unfold strip_by.
  assert (Hhead : lstrip_by f (rev (lstrip_by f (rev (lstrip_by f s))))
                  = rev (lstrip_by f (rev (lstrip_by f s)))).
  { destruct (lstrip_by_split s) as (_ & _ & _ & Hhead).
    destruct (lstrip_by_split (rev (lstrip_by f s))) as (b & Hr & _).
    apply (f_equal (@rev _)) in Hr. rewrite rev_involutive, rev_app_distr in Hr.
    destruct (rev (lstrip_by f (rev (lstrip_by f s)))) as [|x xs] eqn:E; [reflexivity|].
    destruct Hhead as [HL | (c & t & HL & Hc)]; rewrite HL in Hr.
    - discriminate.
    - injection Hr as -> _. now rewrite lstrip_by_fixed. }
  now rewrite Hhead, rev_involutive, lstrip_by_idem.
Qed.

End Strip.

(** * The [.env] loader *)

Lemma split_once_spec (c : N) (s a b : str) :
  split_once c s = Some (a, b) -> s = a ++ c :: b /\ ~ In c a.
Proof.
  revert a b. induction s as [|x s IH]; intros a b; cbn; [discriminate|].
  destruct (N.eqb_spec x c) as [-> | Hx].
  - intros [= <- <-]. split; [reflexivity | intros []].
  - destruct (split_once c s) as [[a' b']|]; [|discriminate].
    intros [= <- <-]. destruct (IH a' b' eq_refl) as [-> Hin].
    split; [reflexivity|]. intros [Hc | Hc]; [congruence | contradiction].
Qed.


Lemma dotenv_line_cases (env : gmap str str) (line : str) :
  dotenv_line env line = env
  \/ exists key val, dotenv_line env line = <[key := val]> env
                     /\ env !! key = None /\ loadable_key key.
Proof.
  unfold dotenv_line.
  destruct (bool_decide (strip line = []) || startswith (strip line) (u "#"));
    [now left|].
  destruct (split_once 61 (strip line)) as [[key val]|] eqn:Hsplit; [|now left].
  destruct (bool_decide (strip key = [])) eqn:Hk; [now left|].
  destruct (bool_decide (env !! strip key = None)) eqn:He; [|now left].
  right. do 2 eexists. split; [reflexivity|].
  apply bool_decide_eq_false in Hk. apply bool_decide_eq_true in He.
  split; [exact He|]. split; [exact Hk|]. split; [|apply strip_by_idem].
  apply split_once_spec in Hsplit as [_ Hno].
  destruct (strip_by_infix isspace key) as (a & b & Hkey).
  intros Hin. apply Hno. fold (strip key) in Hkey. rewrite Hkey.
  apply in_or_app. right. apply in_or_app. now left.
Qed.

Lemma dotenv_lines_keep (ls : list str) (env : gmap str str) (k v : str) :
  env !! k = Some v -> fold_left dotenv_line ls env !! k = Some v.
Proof.
  revert env. induction ls as [|line ls IH]; intros env Hk; [exact Hk|].
  cbn [fold_left]. apply IH.
  destruct (dotenv_line_cases env line) as [-> | (key & val & -> & Hnone & _)];
    [exact Hk|].
  rewrite lookup_insert_ne; [exact Hk | congruence].
Qed.

Lemma dotenv_lines_new (ls : list str) (env : gmap str str) (k v : str) :
  fold_left dotenv_line ls env !! k = Some v ->
  env !! k = Some v \/ (env !! k = None /\ loadable_key k).
Proof.
  revert env. induction ls as [|line ls IH]; intros env Hk; [now left|].
  cbn [fold_left] in Hk. apply IH in Hk.
  destruct (dotenv_line_cases env line) as [Heq | (key & val & Heq & Hnone & Hgood)];
    rewrite Heq in Hk; [exact Hk|].
  destruct (decide (key = k)) as [-> | Hne].
  - right. now split.
  - rewrite !lookup_insert_ne in Hk by exact Hne. exact Hk.
Qed.

(** X1. Loading [.env] never overrides a variable: a binding of the
    environment, or one made by an earlier line of the file, is still
    there after the whole file is loaded. *)
Theorem dotenv_first_binding_wins (l1 l2 : list str) (environ env1 env' : gmap str str) :
  _load_env_from_dotenv (Lines l1) environ = Ok env1 ->
  _load_env_from_dotenv (Lines (l1 ++ l2)) environ = Ok env' ->
  forall k v, env1 !! k = Some v -> env' !! k = Some v.
Proof.
  cbn. intros [= <-] [= <-] k v Hk. rewrite fold_left_app.
  now apply dotenv_lines_keep.
Qed.

Lemma dotenv_first_binding_wins_witness :
  fold_left dotenv_line [u "A=1"; u "A=2"; u "B=3"] {[ u "B" := u "0" ]} !! u "A"
  = Some (u "1")
  /\ fold_left dotenv_line [u "A=1"; u "A=2"; u "B=3"] {[ u "B" := u "0" ]} !! u "B"
     = Some (u "0").
Proof.
  split.
  - apply (dotenv_first_binding_wins [u "A=1"] [u "A=2"; u "B=3"]
             {[ u "B" := u "0" ]} _ _ eq_refl eq_refl).
    reflexivity.
  - apply (dotenv_first_binding_wins [] [u "A=1"; u "A=2"; u "B=3"]
             {[ u "B" := u "0" ]} _ _ eq_refl eq_refl).
    reflexivity.
Defined.

(** X2. Whatever file is loaded, a variable that was not in the
    environment before has a name that is not empty, contains no [=] and
    carries no whitespace at either end. *)
Theorem dotenv_added_keys (f : dotenv_file) (environ env' : gmap str str) :
  _load_env_from_dotenv f environ = Ok env' ->
  forall k v, env' !! k = Some v -> environ !! k = None -> loadable_key k.
Proof.
  intros Hload k v Hk Hnew. destruct f as [| |ls]; cbn in Hload; try discriminate.
  - injection Hload as <-. congruence.
  - injection Hload as <-. apply dotenv_lines_new in Hk as [Hk | [_ Hgood]];
      [congruence | exact Hgood].
Qed.

Lemma dotenv_added_keys_witness : loadable_key (u "SEOUL_API_KEY").
Proof.
  apply (dotenv_added_keys (Lines [u "# key"; u " SEOUL_API_KEY = 'abc' "; u "=x"]) ∅ _
           eq_refl (u "SEOUL_API_KEY") (u "abc")); reflexivity.
Defined.



(** * URLs *)

Lemma uint_chars_inj (d d' : Decimal.uint) : uint_chars d = uint_chars d' -> d = d'.
Proof.
  revert d'. induction d; intros d'; destruct d'; cbn; intros [=]; f_equal; auto.
Qed.

Lemma uint_chars_digits (d : Decimal.uint) :
  Forall (fun c => 48 <= c <= 57) (uint_chars d).
Proof. induction d; cbn; constructor; (lia || assumption). Qed.

Lemma str_of_Z_chars (z : Z) : Forall (fun c => c = 45 \/ 48 <= c <= 57) (str_of_Z z).
Proof.
  unfold str_of_Z. destruct (z <? 0)%Z; [constructor; [now left|]|];
    (eapply Forall_impl; [apply uint_chars_digits | intros c Hc; now right]).
Qed.

Lemma str_of_Z_inj (a b : Z) : str_of_Z a = str_of_Z b -> a = b.
Proof.
  unfold str_of_Z.
  destruct (Z.ltb_spec a 0) as [Ha | Ha], (Z.ltb_spec b 0) as [Hb | Hb]; intros Heq.
  - injection Heq as Heq. apply uint_chars_inj, DecimalN.Unsigned.to_uint_inj in Heq. lia.
  - pose proof (uint_chars_digits (N.to_uint (Z.to_N b))) as Hd. rewrite <- Heq in Hd.
    apply Forall_cons in Hd as [Hd _]. lia.
  - pose proof (uint_chars_digits (N.to_uint (Z.to_N a))) as Hd. rewrite Heq in Hd.
    apply Forall_cons in Hd as [Hd _]. lia.
  - apply uint_chars_inj, DecimalN.Unsigned.to_uint_inj in Heq. lia.
Qed.

Lemma str_of_Z_no_slash (z : Z) : ~ In 47 (str_of_Z z).
Proof.
  intros Hin. pose proof (str_of_Z_chars z) as Hc. rewrite Forall_forall in Hc.
  apply list_elem_of_In, Hc in Hin. lia.
Qed.

Lemma split_at_first (c : N) (x y x' y' : str) :
  ~ In c x -> ~ In c x' -> x ++ c :: y = x' ++ c :: y' -> x = x' /\ y = y'.
Proof.
  revert x'. induction x as [|a x IH]; intros [|a' x'] Hx Hx'; cbn; intros [= ].
  - now subst.
  - subst. exfalso. apply Hx'. now left.
  - subst. exfalso. apply Hx. now left.
  - subst. destruct (IH x') as [-> ->]; auto.
    + intros Hc. apply Hx. now right.
    + intros Hc. apply Hx'. now right.
Qed.

(** X4. For one API key, two page ranges have the same URL only when they
    are the same range: every page of a run is a request of its own. *)
Theorem build_url_injective (api_key : str) (start stop start' stop' : Z) :
  Fetch.build_url api_key start stop = Fetch.build_url api_key start' stop' ->
  start = start' /\ stop = stop'.
Proof.
  unfold Fetch.build_url. intros Heq.
  repeat apply app_inv_head in Heq.
  change (u "/") with [47] in Heq. cbn [app] in Heq.
  apply split_at_first in Heq as [Hs Heq]; try apply str_of_Z_no_slash.
  apply app_inv_tail in Heq. split; now apply str_of_Z_inj.
Qed.

Lemma build_url_injective_witness : (2001 = 2001 /\ 3000 = 3000)%Z.
Proof.
  apply (build_url_injective (u "key") 2001 3000 2001 3000). reflexivity.
Defined.

(** * Payloads *)

Lemma only_dicts_of_dicts (rows : list row) : only_dicts (List.map PDict rows) = rows.
Proof.
  unfold only_dicts. induction rows as [|r rows IH]; [reflexivity|].
  cbn. now rewrite IH.
Qed.

(** X5. [extract_payload] reads a well-formed page back: from the body
    that carries a total and a list of records it returns that total and
    those records. From anything that is not an object holding an object
    under the service key it returns the count 0 and no rows, and from a
    well-formed object it keeps the object entries of the row array, in
    order, whatever else the array holds. *)
Theorem extract_payload_reads `{Runtime} :
  (forall total rows, Fetch.extract_payload (page_body total rows) = (total, rows))
  /\ (forall data,
        (forall d obj, data = PDict d ->
                       d !! u "ListPublicReservationEducation" = Some (PDict obj) ->
                       False) ->
        Fetch.extract_payload data = (0%Z, []))
  /\ (forall d obj l,
        d !! u "ListPublicReservationEducation" = Some (PDict obj) ->
        obj !! u "row" = Some (PList l) ->
        List.map PDict (Fetch.extract_payload (PDict d)).2 = List.filter is_dict l).
Proof.
  split; [|split].
  - intros total rows.
    transitivity (total, only_dicts (List.map PDict rows)); [reflexivity|].
    now rewrite only_dicts_of_dicts.
  - intros data Hbad. unfold Fetch.extract_payload, dict_get.
    destruct data as [| | | | |l|d]; try reflexivity. cbn [as_dict].
    destruct (d !! u "ListPublicReservationEducation") as [[| | | | |l|obj]|] eqn:Hd;
      try reflexivity.
    exfalso. eapply Hbad; [reflexivity | exact Hd].
  - intros d obj l Hd Hrow. unfold Fetch.extract_payload, dict_get.
    cbn [as_dict]. rewrite Hd. cbn [from_option as_dict id]. rewrite Hrow.
    cbn [from_option as_list id snd]. apply only_dicts_filter.
Qed.

Lemma extract_payload_reads_witness :
  @Fetch.extract_payload demo_runtime (PList []) = (0%Z, []).
Proof.
  apply (proj1 (proj2 (@extract_payload_reads demo_runtime))).
  intros d obj Hd. discriminate.
Defined.

(** * The compact projection, continued *)

Section CompactMore.
Context `{Runtime}.

Lemma field_str_text (d : row) (k : string) (s : str) :
  d !! u k = Some (PStr s) -> field_str d k "" = s.
Proof.
  intros Hk. unfold field_str, dict_get, py_or. rewrite Hk. now destruct s.
Qed.

Lemma compact_field (r : row) (k : string) :
  In k Fetch.COMPACT_FIELDS -> field_str (compact r) k "" = field_str r k "".
Proof. intros Hk. apply field_str_text. now apply compact_lookup. Qed.

Lemma from_dict_of_compact (R : Fetch.Row) :
  Fetch.from_dict (Fetch.to_compact_dict R) = R.
Proof.
  destruct R. unfold Fetch.from_dict. f_equal; apply field_str_text; reflexivity.
Qed.

Lemma compact_pass12 (r : row) : pass12 (compact r) = pass12 r.
Proof.
  unfold pass12. rewrite !compact_field; [reflexivity | |]; cbn; tauto.
Qed.

Lemma compact_pass3 (r : row) : pass3 (compact r) = pass3 r.
Proof. unfold pass3. rewrite compact_field; [reflexivity|]. cbn; tauto. Qed.

Lemma compact_sort_key (r : row) : Compose.sort_key (compact r) = Compose.sort_key r.
Proof.
  unfold Compose.sort_key. rewrite !compact_field; [reflexivity | |]; cbn; tauto.
Qed.

(** When the fetcher's [parse_dt] call returns, it returns what the
    composer's returns on the text of the field. *)
Lemma fetch_parse_agrees (v : pyval) (o : option datetime) :
  Fetch.parse_dt (py_or v (PStr [])) = Ok o ->
  o = Compose.parse_dt (py_str (py_or v (PStr (u "")))).
Proof.
  unfold py_or. change (u "") with (@nil N).
  destruct (truthy v) eqn:Hv.
  - unfold Fetch.parse_dt. rewrite Hv. cbn [negb].
    destruct v; try discriminate. intros [= <-]. cbn [py_str].
    destruct s; [discriminate | reflexivity].
  - intros [= <-]. reflexivity.
Qed.

Lemma fetch_sort_key_agrees (r : row) (k : datetime) :
  Fetch.sort_key r = Ok k -> k = Compose.sort_key r.
Proof.
  unfold Fetch.sort_key, Compose.sort_key, field_str.
  destruct (Fetch.parse_dt (py_or (dict_get r (u "RCPTBGNDT")) (PStr []))) as [o1|e] eqn:H1;
    [|discriminate].
  apply fetch_parse_agrees in H1 as <-. cbn [bind].
  destruct o1 as [d|]; [now intros [= <-]|].
  destruct (Fetch.parse_dt (py_or (dict_get r (u "SVCOPNBGNDT")) (PStr []))) as [o2|e] eqn:H2;
    [|discriminate].
  apply fetch_parse_agrees in H2 as <-. cbn [bind]. intros [= <-]. now destruct o2.
Qed.

End CompactMore.

(** X6. The compact projection loses nothing of a record of eleven
    strings: reading [to_compact_dict] back with [from_dict] gives the
    record, so projecting a list that is already compact changes
    nothing. *)
Theorem project_compact_idempotent `{Runtime} :
  (forall R, Fetch.from_dict (Fetch.to_compact_dict R) = R)
  /\ (forall rows,
        Fetch.project_compact (Fetch.project_compact rows) = Fetch.project_compact rows).
Proof.
  split; [apply from_dict_of_compact|].
  intros rows. unfold Fetch.project_compact. rewrite map_map.
  apply map_ext. intros r. now rewrite from_dict_of_compact.
Qed.

(** X7. A compact record holds exactly the eleven fields, each as the
    string the defensive read of the source record gives (the empty string
    when the source field is missing or null), and the projection keeps
    the length and order of the list. *)
Theorem project_compact_fields `{Runtime} (rows : list row) :
  length (Fetch.project_compact rows) = length rows
  /\ (forall i r, rows !! i = Some r ->
        exists c, Fetch.project_compact rows !! i = Some c
                  /\ (forall k, In k Fetch.COMPACT_FIELDS ->
                                c !! u k = Some (PStr (field_str r k "")))
                  /\ (forall k, ~ In k (List.map u Fetch.COMPACT_FIELDS) -> c !! k = None)
                  /\ (forall k, blank_field r k -> In k Fetch.COMPACT_FIELDS ->
                                c !! u k = Some (PStr []))).
Proof.
  split; [apply length_map|].
  intros i r Hi. exists (compact r). split.
  - unfold Fetch.project_compact. change (@List.map ?A ?B) with (@fmap list _ A B).
    rewrite list_lookup_fmap, Hi. reflexivity.
  - split; [intros k Hk; now apply compact_lookup|]. split.
    + intros k Hk. unfold Fetch.to_compact_dict.
      apply not_elem_of_list_to_map_1. rewrite list_elem_of_In.
      intros Hin. apply Hk. exact Hin.
    + intros k Hb Hk. rewrite compact_lookup by exact Hk.
      now rewrite (field_str_blank r k Hb).
Qed.

Lemma project_compact_fields_witness :
  exists c, @Fetch.project_compact demo_runtime [record_no_target "강남구" "접수중"] !! 0%nat
            = Some c
            /\ c !! u "USETGTINFO" = Some (PStr []).
Proof.
  destruct (proj2 (@project_compact_fields demo_runtime [record_no_target "강남구" "접수중"])
              0%nat _ eq_refl) as (c & Hc & _ & _ & Hblank).
  exists c. split; [exact Hc|]. apply Hblank.
  - left. reflexivity.
  - cbn. tauto.
Defined.

Lemma filter_map_commute {A B} (f : A -> B) (p : B -> bool) (l : list A) :
  List.filter p (List.map f l) = List.map f (List.filter (fun x => p (f x)) l).
Proof.
  induction l as [|x l IH]; [reflexivity|]. cbn. destruct (p (f x)); cbn; now rewrite IH.
Qed.

Lemma filter_rows_compact_commute `{Runtime} (rows : list row) :
  Fetch.filter_rows (Fetch.project_compact rows)
  = (Fetch.project_compact (Fetch.filter_rows rows).1,
     Fetch.project_compact (Fetch.filter_rows rows).2).
Proof.
  rewrite !filter_rows_filter. cbn [fst snd]. unfold Fetch.project_compact.
  rewrite filter_map_commute.
  rewrite (List.filter_ext (fun x => pass12 (Fetch.to_compact_dict (Fetch.from_dict x)))
             pass12 compact_pass12).
  rewrite filter_map_commute.
  rewrite (List.filter_ext (fun x => pass3 (Fetch.to_compact_dict (Fetch.from_dict x)))
             pass3 compact_pass3).
  reflexivity.
Qed.

(** X8. Filtering commutes with the compact projection: the two filters
    give on the projected list the projections of what they give on the
    raw list, so the files written from raw records and a later filter of
    the compact records agree. *)
Theorem filter_rows_of_compact `{Runtime} (rows : list row) :
  Fetch.filter_rows (Fetch.project_compact rows)
  = (Fetch.project_compact (Fetch.filter_rows rows).1,
     Fetch.project_compact (Fetch.filter_rows rows).2).
Proof. exact (filter_rows_compact_commute rows). Qed.

(** X9. Whenever the fetcher's [sort_key] returns on a record, it returns
    the key the composer computes for that record and for its compact
    projection: both programs order the records the same way. *)
Theorem sort_keys_agree `{Runtime} (r : row) (k : datetime) :
  Fetch.sort_key r = Ok k ->
  Compose.sort_key r = k
  /\ Compose.sort_key (Fetch.to_compact_dict (Fetch.from_dict r)) = k
  /\ Fetch.sort_key (Fetch.to_compact_dict (Fetch.from_dict r)) = Ok k.
Proof.
  intros Hk. apply fetch_sort_key_agrees in Hk as ->.
  split; [reflexivity|]. split; [apply compact_sort_key|].
  rewrite fetch_sort_key_text by apply compact_text.
  f_equal. apply compact_sort_key.
Qed.

Lemma sort_keys_agree_witness :
  @Compose.sort_key demo_runtime {[ u "RCPTBGNDT" := PStr (u "20250825") ]}
  = mk_datetime 2025 8 25 0 0 0 0.
Proof.
  assert (Hk : @Fetch.sort_key demo_runtime {[ u "RCPTBGNDT" := PStr (u "20250825") ]}
               = Ok (mk_datetime 2025 8 25 0 0 0 0)) by (vm_compute; reflexivity).
  exact (proj1 (@sort_keys_agree demo_runtime _ _ Hk)).
Defined.

(** * What [main] writes *)

Section Outputs.
Context `{Runtime}.

Lemma keyed_agrees (rows : list row) (kl : list (datetime * row)) :
  keyed Fetch.sort_key rows = Ok kl ->
  kl = List.map (fun r => (Compose.sort_key r, r)) rows.
Proof.
  revert kl. induction rows as [|r rows IH]; intros kl; cbn [keyed List.map].
  - now intros [= <-].
  - destruct (Fetch.sort_key r) as [k|e] eqn:Hk; [|discriminate]. cbn [bind].
    destruct (keyed Fetch.sort_key rows) as [kl'|e]; [|discriminate]. cbn [bind].
    intros [= <-]. apply fetch_sort_key_agrees in Hk as ->. now rewrite (IH kl').
Qed.

Lemma keyed_raises (rows : list row) (e : exn) :
  keyed Fetch.sort_key rows = Raise e ->
  exists r, In r rows /\ Fetch.sort_key r = Raise e.
Proof.
  induction rows as [|r rows IH]; cbn [keyed]; [discriminate|].
  destruct (Fetch.sort_key r) as [k|e'] eqn:Hk; cbn [bind].
  - destruct (keyed Fetch.sort_key rows) as [kl'|e']; cbn [bind]; [discriminate|].
    intros [= <-]. destruct (IH eq_refl) as (r' & Hin & Hr'). exists r'. split; [now right | exact Hr'].
  - intros [= <-]. exists r. split; [now left | exact Hk].
Qed.

Lemma py_sorted_returns (rows l : list row) :
  py_sorted Fetch.sort_key rows = Ok l -> l = Compose.sorted rows.
Proof.
  unfold py_sorted, Compose.sorted.
  destruct (keyed Fetch.sort_key rows) as [kl|e] eqn:Hk; [|discriminate].
  apply keyed_agrees in Hk as ->. now intros [= <-].
Qed.

Lemma sort_keyed_fixed {A} (l : list (datetime * A)) :
  StronglySorted key_le l -> sort_keyed l = l.
Proof.
  induction 1 as [|x l Hl IH Hx]; [reflexivity|]. cbn [sort_keyed]. rewrite IH.
  destruct l as [|y l]; [reflexivity|]. cbn [insert_by].
  apply Forall_cons in Hx as [Hxy _]. unfold key_le, dt_leb in Hxy.
  apply negb_true_iff in Hxy. now rewrite Hxy.
Qed.

Lemma sorted_fixed (rows : list row) :
  StronglySorted by_sort_key rows -> Compose.sorted rows = rows.
Proof.
  intros Hs. unfold Compose.sorted. rewrite sort_keyed_fixed.
  - rewrite map_map. cbn. apply map_id.
  - induction Hs as [|r rows Hs IH Hr]; cbn [List.map]; constructor; [exact IH|].
    apply Forall_map. exact Hr.
Qed.

Lemma sorted_filter (p : row -> bool) (rows : list row) :
  StronglySorted by_sort_key rows -> StronglySorted by_sort_key (List.filter p rows).
Proof.
  induction 1 as [|r rows Hs IH Hr]; cbn; [constructor|].
  destruct (p r); [|exact IH]. constructor; [exact IH|].
  rewrite Forall_forall in *. intros q Hq. apply Hr.
  apply list_elem_of_In. apply list_elem_of_In, filter_In in Hq. tauto.
Qed.

Lemma sorted_project_compact (rows : list row) :
  StronglySorted by_sort_key rows ->
  StronglySorted by_sort_key (Fetch.project_compact rows).
Proof.
  unfold Fetch.project_compact.
  induction 1 as [|r rows Hs IH Hr]; cbn [List.map]; constructor; [exact IH|].
  apply Forall_map. eapply Forall_impl; [exact Hr|].
  intros q Hq. unfold by_sort_key in *. now rewrite !compact_sort_key.
Qed.

Lemma csv_cells_raw (r : row) :
  List.map (fun c => field_str (compact r) c "") Fetch.csv_cols
  = List.map (fun c => field_str r c "") Fetch.csv_cols.
Proof.
  unfold Fetch.csv_cols. cbn [List.map].
  rewrite !compact_field; [reflexivity|..]; cbn; tauto.
Qed.

End Outputs.

(** X10. [sorted(all_rows, key=sort_key)] in the fetcher raises exactly
    when the key of some record raises, with that exception; when it
    returns, the result is a permutation of the rows in non-decreasing
    order of their keys in which records of equal key keep their input
    order. *)
Theorem fetch_sorted_result `{Runtime} (rows : list row) :
  (forall e, py_sorted Fetch.sort_key rows = Raise e ->
             exists r, In r rows /\ Fetch.sort_key r = Raise e)
  /\ (forall l, py_sorted Fetch.sort_key rows = Ok l ->
        Forall (fun r => Fetch.sort_key r = Ok (Compose.sort_key r)) rows
        /\ Permutation l rows
        /\ StronglySorted by_sort_key l
        /\ (forall k, List.filter (fun r => same_key (Compose.sort_key r) k) l
                      = List.filter (fun r => same_key (Compose.sort_key r) k) rows)).
Proof.
  split.
  - intros e. unfold py_sorted.
    destruct (keyed Fetch.sort_key rows) as [kl|e'] eqn:Hk; [discriminate|].
    intros [= <-]. now apply keyed_raises.
  - intros l Hl. split.
    + unfold py_sorted in Hl.
      destruct (keyed Fetch.sort_key rows) as [kl|e'] eqn:Hk; [|discriminate]. clear Hl.
      revert kl Hk. induction rows as [|r rows IH]; intros kl; [constructor|].
      cbn [keyed]. destruct (Fetch.sort_key r) as [k|e] eqn:Hr; [|discriminate].
      cbn [bind]. destruct (keyed Fetch.sort_key rows) as [kl'|e]; [|discriminate].
      intros _. constructor; [|now apply (IH kl')].
      rewrite Hr. f_equal. now apply fetch_sort_key_agrees.
    + apply py_sorted_returns in Hl as ->.
      split; [apply sorted_perm|]. split; [apply sorted_ordered|].
      intros k. apply sorted_stable.
Qed.

Lemma fetch_sorted_result_witness :
  let a : row := {[ u "RCPTBGNDT" := PStr (u "20250826") ]} in
  let b : row := {[ u "RCPTBGNDT" := PStr (u "20250825") ]} in
  Permutation [b; a] [a; b].
Proof.
  intros a b.
  apply (proj2 (@fetch_sorted_result demo_runtime [a; b]) [b; a]).
  vm_compute. reflexivity.
Defined.

Lemma finish_writes `{Runtime} (tr tr' : list event) (all_rows : list row) :
  Fetch.finish tr all_rows = (tr', Exit 0) ->
  let s := Compose.sorted all_rows in
  let v12 := List.filter pass12 s in
  let v123 := List.filter pass3 v12 in
  py_sorted Fetch.sort_key (Fetch.project_compact v12) = Ok (Fetch.project_compact v12)
  /\ tr' = tr ++ [EWriteJson (u "seoul_education_all.json") s;
                  EWriteJson (u "seoul_education_v12.json") (Fetch.project_compact v12);
                  EWriteJson (u "seoul_education_v123.json") (Fetch.project_compact v123);
                  EWriteCsv (u "seoul_education_summary.csv")
                    (List.map u ["SVCID"; "SVCNM"; "SVCSTATNM"; "AREANM"; "USETGTINFO";
                                 "SVCURL"; "RCPTBGNDT"; "RCPTENDDT"]%string)
                    (List.map (fun r => List.map (fun c => field_str r c "") Fetch.csv_cols)
                       v12)].
Proof.
  intros Hfin. cbn zeta.
  assert (Hcsv : py_sorted Fetch.sort_key
                   (Fetch.project_compact (List.filter pass12 (Compose.sorted all_rows)))
                 = Ok (Fetch.project_compact (List.filter pass12 (Compose.sorted all_rows)))).
  { rewrite csv_sort_total. f_equal. apply sorted_fixed.
    apply sorted_project_compact, sorted_filter, sorted_ordered. }
  split; [exact Hcsv|].
  unfold Fetch.finish in Hfin.
  destruct (py_sorted Fetch.sort_key all_rows) as [sorted_rows|e] eqn:Hs; [|discriminate].
  apply py_sorted_returns in Hs as ->.
  rewrite filter_rows_filter, Hcsv in Hfin. injection Hfin as <-.
  unfold Fetch.write_csv_summary, Fetch.project_compact at 3.
  rewrite map_map, (map_ext _ _ csv_cells_raw). reflexivity.
Qed.


(** X11. When the last stage of [main] ends with code 0 it has appended
    exactly four writes: all rows in sorted order, the compact v12 and
    v123 records of that sorted list, and a CSV whose header is the eight
    column names and whose lines are, record for record and in the order
    of the v12 file, the eight field texts of the v12 records; sorting the
    compact list again changes nothing. *)
Theorem finish_outputs `{Runtime} (tr tr' : list event) (all_rows : list row) :
  Fetch.finish tr all_rows = (tr', Exit 0) ->
  let s := Compose.sorted all_rows in
  let v12 := List.filter pass12 s in
  let v123 := List.filter pass3 v12 in
  py_sorted Fetch.sort_key (Fetch.project_compact v12) = Ok (Fetch.project_compact v12)
  /\ tr' = tr ++ [EWriteJson (u "seoul_education_all.json") s;
                  EWriteJson (u "seoul_education_v12.json") (Fetch.project_compact v12);
                  EWriteJson (u "seoul_education_v123.json") (Fetch.project_compact v123);
                  EWriteCsv (u "seoul_education_summary.csv")
                    (List.map u ["SVCID"; "SVCNM"; "SVCSTATNM"; "AREANM"; "USETGTINFO";
                                 "SVCURL"; "RCPTBGNDT"; "RCPTENDDT"]%string)
                    (List.map (fun r => List.map (fun c => field_str r c "") Fetch.csv_cols)
                       v12)].
Proof. exact (finish_writes tr tr' all_rows). Qed.

Lemma finish_outputs_witness :
  files_written
    (@Fetch.finish demo_runtime [] [record "강남구" "접수중" "가족"]).1 = output_files.
Proof.
  destruct (@finish_outputs demo_runtime []
              (@Fetch.finish demo_runtime [] [record "강남구" "접수중" "가족"]).1
              [record "강남구" "접수중" "가족"]) as [_ Htr].
  - vm_compute. reflexivity.
  - rewrite Htr. reflexivity.
Defined.

(** * Runs of the fetcher, continued *)

Section PageRuns.
Context `{Runtime}.
Variables (net : network) (api_key : str).

Lemma page_full_rows (p : Z) :
  page_full net api_key p ->
  exists d, page_result net api_key p = Ok d
            /\ (Fetch.extract_payload d).2 = page_rows net api_key p
            /\ page_rows net api_key p <> [].
Proof.
  intros (d & Hd & Hrows). exists d. unfold page_rows. rewrite Hd. auto.
Qed.

(** The bounded loop over pages that all carry rows. *)
Lemma fetch_known_full (pages : list Z) (all_rows : list row) (tr : list event) :
  Forall (page_full net api_key) pages ->
  exists ev,
    Fetch.fetch_known net api_key pages all_rows tr
    = (tr ++ ev, Some (all_rows ++ flat_map (page_rows net api_key) pages))
    /\ page_fetches ev = List.map Fetch.page_bounds pages
    /\ files_written ev = [].
Proof.
  intros Hfull. revert all_rows tr.
  induction Hfull as [|p pages Hp _ IH]; intros all_rows tr.
  - exists []. cbn [Fetch.fetch_known flat_map List.map]. now rewrite !app_nil_r.
  - rewrite fetch_known_step. cbv zeta.
    destruct (page_full_rows p Hp) as (d & Hd & Hrows & Hne). rewrite Hd, Hrows.
    destruct (page_rows net api_key p) as [|r rows] eqn:Hr; [contradiction|].
    destruct (page_step net api_key (Fetch.page_bounds p).1 (Fetch.page_bounds p).2)
      as (Hw & Hpf & _).
    destruct (IH (all_rows ++ r :: rows)
                (tr ++ EFetchPage (Fetch.page_bounds p).1 (Fetch.page_bounds p).2
                    :: (Fetch.fetch_page net
                          (Fetch.build_url api_key (Fetch.page_bounds p).1
                             (Fetch.page_bounds p).2)).1))
      as (ev & -> & Hpf' & Hw').
    eexists. split; [rewrite <- !app_assoc; cbn [flat_map]; rewrite Hr; reflexivity|].
    rewrite page_fetches_app, files_written_app, Hpf, Hw, Hpf', Hw'.
    split; [|reflexivity]. cbn [List.map app]. now destruct (Fetch.page_bounds p).
Qed.

(** The bounded loop when an empty page follows pages that carry rows. *)
Lemma fetch_known_stops (full : list Z) (p : Z) (rest : list Z) (all_rows : list row)
  (tr : list event) :
  Forall (page_full net api_key) full -> page_empty net api_key p ->
  exists ev,
    Fetch.fetch_known net api_key (full ++ p :: rest) all_rows tr
    = (tr ++ ev, Some (all_rows ++ flat_map (page_rows net api_key) full))
    /\ page_fetches ev = List.map Fetch.page_bounds (full ++ [p])
    /\ files_written ev = [].
Proof.
  intros Hfull (d & Hd & Hrows). revert all_rows tr.
  induction Hfull as [|q full Hq _ IH]; intros all_rows tr.
  - cbn [app]. rewrite fetch_known_step. cbv zeta. rewrite Hd, Hrows.
    destruct (page_step net api_key (Fetch.page_bounds p).1 (Fetch.page_bounds p).2)
      as (Hw & Hpf & _).
    cbn [flat_map]. rewrite (app_nil_r all_rows).
    eexists. split; [reflexivity|].
    split; [|exact Hw]. rewrite Hpf. cbn [List.map app]. now destruct (Fetch.page_bounds p).
  - cbn [app]. rewrite fetch_known_step. cbv zeta.
    destruct (page_full_rows q Hq) as (dq & Hdq & Hrq & Hne). rewrite Hdq, Hrq.
    destruct (page_rows net api_key q) as [|r rows] eqn:Hr; [contradiction|].
    destruct (page_step net api_key (Fetch.page_bounds q).1 (Fetch.page_bounds q).2)
      as (Hw & Hpf & _).
    destruct (IH (all_rows ++ r :: rows)
                (tr ++ EFetchPage (Fetch.page_bounds q).1 (Fetch.page_bounds q).2
                    :: (Fetch.fetch_page net
                          (Fetch.build_url api_key (Fetch.page_bounds q).1
                             (Fetch.page_bounds q).2)).1))
      as (ev & -> & Hpf' & Hw').
    eexists. split; [rewrite <- !app_assoc; cbn [flat_map]; rewrite Hr; reflexivity|].
    rewrite page_fetches_app, files_written_app, Hpf, Hw, Hpf', Hw'.
    split; [|reflexivity]. cbn [List.map app]. now destruct (Fetch.page_bounds q).
Qed.

(** The open-ended loop is the bounded loop over the pages up to the first
    one that is empty or fails. *)
Lemma fetch_unknown_as_known (n fuel : nat) (p : Z) (all_rows : list row)
  (tr : list event) :
  (n < fuel)%nat ->
  (forall q, (p <= q < p + Z.of_nat n)%Z -> page_full net api_key q) ->
  page_fails net api_key (p + Z.of_nat n) \/ page_empty net api_key (p + Z.of_nat n) ->
  Fetch.fetch_unknown fuel net api_key p all_rows tr
  = Some (Fetch.fetch_known net api_key (py_range p (p + Z.of_nat n + 1)) all_rows tr).
Proof.
  revert fuel p all_rows tr. induction n as [|n IH];
    intros [|fuel] p all_rows tr Hfuel Hfull Hstop; try lia;
    rewrite fetch_unknown_step, py_range_step, fetch_known_step by lia; cbv zeta.
  - rewrite Z.add_0_r in *. destruct Hstop as [[e He] | (d & Hd & Hrows)].
    + now rewrite He.
    + now rewrite Hd, Hrows.
  - destruct (Hfull p ltac:(lia)) as (d & Hd & Hrows). rewrite Hd.
    destruct (Fetch.extract_payload d).2 as [|r rows]; [contradiction|].
    replace (p + Z.of_nat (S n))%Z with (p + 1 + Z.of_nat n)%Z in * by lia.
    apply IH; [lia | intros q Hq; apply Hfull; lia | exact Hstop].
Qed.

Lemma py_range_full (a b : Z) :
  (forall q, (a <= q < b)%Z -> page_full net api_key q) ->
  Forall (page_full net api_key) (py_range a b).
Proof.
  intros Hfull. unfold py_range. apply Forall_map, Forall_forall.
  intros i Hi. apply list_elem_of_In, in_seq in Hi. apply Hfull. lia.
Qed.

Lemma py_range_snoc (a b : Z) : (a <= b)%Z -> py_range a (b + 1) = py_range a b ++ [b].
Proof.
  intros Hab. unfold py_range.
  replace (Z.to_nat (b + 1 - a)) with (Z.to_nat (b - a) + 1)%nat by lia.
  rewrite seq_app, map_app. cbn [seq List.map]. do 2 f_equal. lia.
Qed.

End PageRuns.

Lemma map_seq_offset (a : Z) (k j len : nat) :
  List.map (fun i => (a + Z.of_nat i)%Z) (seq (k + j) len)
  = List.map (fun i => (a + Z.of_nat k + Z.of_nat i)%Z) (seq j len).
Proof.
  revert j. induction len as [|len IH]; intros j; [reflexivity|]. cbn [seq List.map].
  f_equal; [lia|]. rewrite <- Nat.add_succ_r. apply IH.
Qed.

Lemma py_range_app (a m b : Z) :
  (a <= m <= b)%Z -> py_range a b = py_range a m ++ py_range m b.
Proof.
  intros Hm. unfold py_range.
  replace (Z.to_nat (b - a)) with (Z.to_nat (m - a) + Z.to_nat (b - m))%nat by lia.
  rewrite seq_app, map_app. f_equal. cbn [Nat.add].
  rewrite <- (Nat.add_0_r (Z.to_nat (m - a))), map_seq_offset.
  apply map_ext. intros i. lia.
Qed.

Lemma total_pages_pos (total : Z) : (0 < total)%Z -> (1 <= total_pages total)%Z.
Proof.
  intros Ht. unfold total_pages, Fetch.PAGE_SIZE.
  apply Z.div_le_lower_bound; lia.
Qed.

Section MainPages.
Context `{Runtime}.
Variables (fuel : nat) (dotenv : dotenv_file) (environ env' : gmap str str)
  (net : network).
Hypothesis Hload : _load_env_from_dotenv dotenv environ = Ok env'.
Hypothesis Hkey : effective_key env' <> [].

Lemma first_page_trace :
  let tr1 := EFetchPage 1 Fetch.PAGE_SIZE
             :: (Fetch.fetch_page net
                   (Fetch.build_url (effective_key env') 1 Fetch.PAGE_SIZE)).1 in
  page_fetches tr1 = [Fetch.page_bounds 1] /\ files_written tr1 = [].
Proof.
  destruct (page_step net (effective_key env') 1 Fetch.PAGE_SIZE) as (Hw & Hpf & _).
  split; [exact Hpf | exact Hw].
Qed.

Lemma main_all_pages (d : pyval) :
  page_result net (effective_key env') 1 = Ok d ->
  (0 < (Fetch.extract_payload d).1)%Z ->
  (forall q, (2 <= q <= total_pages (Fetch.extract_payload d).1)%Z ->
             page_full net (effective_key env') q) ->
  exists tr0,
    Fetch.main fuel dotenv environ net
    = Some (Fetch.finish tr0
              (flat_map (page_rows net (effective_key env'))
                 (py_range 1 (total_pages (Fetch.extract_payload d).1 + 1))))
    /\ page_fetches tr0
       = List.map Fetch.page_bounds
           (py_range 1 (total_pages (Fetch.extract_payload d).1 + 1))
    /\ files_written tr0 = [].
Proof.
  intros Hd Hpos Hfull. rewrite (main_unfold fuel dotenv environ env' net Hload Hkey).
  cbv zeta. rewrite Hd. apply Z.gtb_lt in Hpos as Hgt. rewrite Hgt.
  pose proof (total_pages_pos _ Hpos) as HT. fold (total_pages (Fetch.extract_payload d).1).
  destruct first_page_trace as [Hpf1 Hw1].
  destruct (fetch_known_full net (effective_key env')
              (py_range 2 (total_pages (Fetch.extract_payload d).1 + 1))
              (Fetch.extract_payload d).2
              (EFetchPage 1 Fetch.PAGE_SIZE
               :: (Fetch.fetch_page net
                     (Fetch.build_url (effective_key env') 1 Fetch.PAGE_SIZE)).1))
    as (ev & -> & Hpf & Hw).
  { apply py_range_full. intros q Hq. apply Hfull. lia. }
  eexists. split; [|split].
  - rewrite (py_range_step 1) by lia. cbn [flat_map]. unfold page_rows at 2.
    rewrite Hd. reflexivity.
  - rewrite (py_range_step 1) by lia. now rewrite page_fetches_app, Hpf1, Hpf.
  - now rewrite files_written_app, Hw1, Hw.
Qed.

Lemma main_empty_page (n : nat) (d : pyval) :
  page_result net (effective_key env') 1 = Ok d ->
  (forall q, (2 <= q < 2 + Z.of_nat n)%Z -> page_full net (effective_key env') q) ->
  page_empty net (effective_key env') (2 + Z.of_nat n) ->
  ((0 < (Fetch.extract_payload d).1)%Z
   /\ (2 + Z.of_nat n <= total_pages (Fetch.extract_payload d).1)%Z)
  \/ (((Fetch.extract_payload d).1 <= 0)%Z /\ (n < fuel)%nat) ->
  exists tr0,
    Fetch.main fuel dotenv environ net
    = Some (Fetch.finish tr0
              (flat_map (page_rows net (effective_key env'))
                 (py_range 1 (2 + Z.of_nat n))))
    /\ page_fetches tr0 = List.map Fetch.page_bounds (py_range 1 (3 + Z.of_nat n))
    /\ files_written tr0 = [].
Proof.
  intros Hd Hfull Hempty Hcase.
  rewrite (main_unfold fuel dotenv environ env' net Hload Hkey). cbv zeta. rewrite Hd.
  destruct first_page_trace as [Hpf1 Hw1].
  set (tr1 := EFetchPage 1 Fetch.PAGE_SIZE :: _) in *. clearbody tr1.
  assert (Hloop : exists rest,
            (if ((Fetch.extract_payload d).1 >? 0)%Z
             then Some (Fetch.fetch_known net (effective_key env')
                          (py_range 2 (((Fetch.extract_payload d).1 + Fetch.PAGE_SIZE - 1)
                                        / Fetch.PAGE_SIZE + 1))
                          (Fetch.extract_payload d).2 tr1)
             else Fetch.fetch_unknown fuel net (effective_key env') 2
                    (Fetch.extract_payload d).2 tr1)
            = Some (Fetch.fetch_known net (effective_key env')
                      (py_range 2 (2 + Z.of_nat n) ++ (2 + Z.of_nat n)%Z :: rest)
                      (Fetch.extract_payload d).2 tr1)).
  { destruct Hcase as [[Hpos HT] | [Hneg Hfuel]].
    - apply Z.gtb_lt in Hpos as ->. fold (total_pages (Fetch.extract_payload d).1).
      exists (py_range (2 + Z.of_nat n + 1) (total_pages (Fetch.extract_payload d).1 + 1)).
      do 2 f_equal.
      rewrite (py_range_app 2 (2 + Z.of_nat n)) by lia.
      now rewrite (py_range_step (2 + Z.of_nat n)) by lia.
    - destruct (Z.gtb_spec (Fetch.extract_payload d).1 0) as [|_]; [lia|].
      exists []. rewrite (fetch_unknown_as_known net (effective_key env') n)
        by (try assumption; now right).
      now rewrite py_range_snoc by lia. }
  destruct Hloop as [rest ->].
  destruct (fetch_known_stops net (effective_key env') (py_range 2 (2 + Z.of_nat n))
              (2 + Z.of_nat n) rest (Fetch.extract_payload d).2 tr1)
    as (ev & -> & Hpf & Hw).
  { apply py_range_full. exact Hfull. }
  { exact Hempty. }
  eexists. split; [|split].
  - rewrite (py_range_step 1) by lia. cbn [flat_map]. unfold page_rows at 2.
    rewrite Hd. reflexivity.
  - rewrite page_fetches_app, Hpf1, Hpf, (py_range_step 1) by lia.
    replace (3 + Z.of_nat n)%Z with (2 + Z.of_nat n + 1)%Z by lia.
    now rewrite (py_range_snoc 2) by lia.
  - now rewrite files_written_app, Hw1, Hw.
Qed.


End MainPages.

(** * Pages of a run *)

(** X12. With a declared total above 0 and every page up to the computed
    page count carrying rows, [main] fetches the pages 1 to
    ceil(total / 1000), each once and in order, writes nothing meanwhile,
    and hands the rows of those pages, in page order, to its last stage. *)
Theorem main_fetches_every_page `{Runtime} (fuel : nat) (dotenv : dotenv_file)
  (environ env' : gmap str str) (net : network) (d : pyval) :
  _load_env_from_dotenv dotenv environ = Ok env' ->
  effective_key env' <> [] ->
  page_result net (effective_key env') 1 = Ok d ->
  (0 < (Fetch.extract_payload d).1)%Z ->
  (forall q, (2 <= q <= total_pages (Fetch.extract_payload d).1)%Z ->
             page_full net (effective_key env') q) ->
  exists tr0,
    Fetch.main fuel dotenv environ net
    = Some (Fetch.finish tr0
              (flat_map (page_rows net (effective_key env'))
                 (py_range 1 (total_pages (Fetch.extract_payload d).1 + 1))))
    /\ page_fetches tr0
       = List.map Fetch.page_bounds
           (py_range 1 (total_pages (Fetch.extract_payload d).1 + 1))
    /\ files_written tr0 = [].
Proof. intros Hload Hkey. now apply main_all_pages. Qed.

Lemma main_fetches_every_page_witness :
  exists tr0,
    option_map (fun r => page_fetches r.1)
      (@Fetch.main demo_runtime 0 NoFile {[ u "SEOUL_API_KEY" := u "key" ]}
         (steady_network 4321 [record "강남구" "접수중" "가족"]))
    = option_map (fun r => page_fetches r.1)
        (Some (@Fetch.finish demo_runtime tr0
                 (flat_map (@page_rows demo_runtime
                              (steady_network 4321 [record "강남구" "접수중" "가족"])
                              (u "key"))
                    (py_range 1 6))))
    /\ page_fetches tr0
       = [(1, 1000); (1001, 2000); (2001, 3000); (3001, 4000); (4001, 5000)]%Z.
Proof.
  destruct (@main_fetches_every_page demo_runtime 0 NoFile
              {[ u "SEOUL_API_KEY" := u "key" ]} {[ u "SEOUL_API_KEY" := u "key" ]}
              (steady_network 4321 [record "강남구" "접수중" "가족"])
              (page_body 4321 [record "강남구" "접수중" "가족"]))
    as (tr0 & Hmain & Hpages & _).
  - reflexivity.
  - vm_compute. discriminate.
  - reflexivity.
  - vm_compute. reflexivity.
  - intros q _. exists (page_body 4321 [record "강남구" "접수중" "가족"]).
    split; [vm_compute; reflexivity | vm_compute; discriminate].
  - exists tr0. split; [now rewrite Hmain | exact Hpages].
Defined.

(** X13. An empty page ends the fetching, in the bounded loop and in the
    open-ended one alike: when the pages 2 to n+1 carry rows and page n+2
    is empty, [main] fetches the pages 1 to n+2 and no further one, and
    its last stage receives exactly the rows of the pages 1 to n+1. The
    open-ended loop needs fuel for its n+1 iterations. *)
Theorem main_stops_at_empty_page `{Runtime} (fuel : nat) (dotenv : dotenv_file)
  (environ env' : gmap str str) (net : network) (n : nat) (d : pyval) :
  _load_env_from_dotenv dotenv environ = Ok env' ->
  effective_key env' <> [] ->
  page_result net (effective_key env') 1 = Ok d ->
  (forall q, (2 <= q < 2 + Z.of_nat n)%Z -> page_full net (effective_key env') q) ->
  page_empty net (effective_key env') (2 + Z.of_nat n) ->
  ((0 < (Fetch.extract_payload d).1)%Z
   /\ (2 + Z.of_nat n <= total_pages (Fetch.extract_payload d).1)%Z)
  \/ (((Fetch.extract_payload d).1 <= 0)%Z /\ (n < fuel)%nat) ->
  exists tr0,
    Fetch.main fuel dotenv environ net
    = Some (Fetch.finish tr0
              (flat_map (page_rows net (effective_key env'))
                 (py_range 1 (2 + Z.of_nat n))))
    /\ page_fetches tr0 = List.map Fetch.page_bounds (py_range 1 (3 + Z.of_nat n))
    /\ files_written tr0 = [].
Proof. intros Hload Hkey. now apply main_empty_page. Qed.

Lemma main_stops_at_empty_page_witness :
  exists tr0,
    @Fetch.main demo_runtime 1 NoFile {[ u "SEOUL_API_KEY" := u "key" ]}
      (finite_network 0 1 [record "강남구" "접수중" "가족"])
    = Some (@Fetch.finish demo_runtime tr0 [record "강남구" "접수중" "가족"])
    /\ page_fetches tr0 = [(1, 1000); (1001, 2000)]%Z.
Proof.
  destruct (@main_stops_at_empty_page demo_runtime 1 NoFile
              {[ u "SEOUL_API_KEY" := u "key" ]} {[ u "SEOUL_API_KEY" := u "key" ]}
              (finite_network 0 1 [record "강남구" "접수중" "가족"]) 0
              (page_body 0 [record "강남구" "접수중" "가족"]))
    as (tr0 & Hmain & Hpages & _).
  - reflexivity.
  - vm_compute. discriminate.
  - vm_compute. reflexivity.
  - intros q Hq. lia.
  - eexists. split; vm_compute; reflexivity.
  - right. split; [vm_compute; discriminate | lia].
  - exists tr0. split; [|exact Hpages]. rewrite Hmain. repeat f_equal.
Defined.

(** * From the fetcher to the composer *)






(** * What [fetch_page] returns *)

Ltac result_scenario :=
  cbn;
  (split; [|split]);
  [ intros v0 Hres; try discriminate; injection Hres as <-
  | intros e0 Hres; try discriminate; injection Hres as <-; eauto
  | try discriminate; try (intros [= ?]; congruence) ].

(** X15. [fetch_page] returns a body only if one of its at most three
    requests got a 2xx response carrying that body, every request before
    it having failed in a retryable way. What it raises is a
    [RuntimeError], or the exception of [requests] that is neither a
    connection error nor a timeout; connection errors, timeouts and parse
    failures never escape as such, and the [RuntimeError] raised after the
    loop always carries the last exception. *)
Theorem fetch_page_result (net : network) (url : str) :
  (forall v, (Fetch.fetch_page net url).2 = Ok v ->
     exists k status,
       (k < 3)%nat /\ net url k = Response status (Some v) /\ is_2xx status = true
       /\ forall j, (j < k)%nat -> retryable (net url j) = true)
  /\ (forall e, (Fetch.fetch_page net url).2 = Raise e ->
        e = RequestException \/ exists why, e = RuntimeError why)
  /\ (Fetch.fetch_page net url).2 <> Raise (RuntimeError (RetriesExhausted None)).
Proof.
  unfold Fetch.fetch_page.
  change (py_range 1 (Fetch.MAX_RETRIES + 1)) with [1; 2; 3]%Z.
  cbn [Fetch.retry_loop].
  pose proof (attempt_body_retry net url 1) as T1.
  pose proof (attempt_body_retry net url 2) as T2.
  pose proof (attempt_body_last net url) as T3.
  pose proof (attempt_body_stop net url 1) as S1.
  pose proof (attempt_body_stop net url 2) as S2.
  pose proof (attempt_body_stop net url 3) as S3.
  change (Z.to_nat (1 - 1)) with 0%nat in *.
  change (Z.to_nat (2 - 1)) with 1%nat in *.
  change (Z.to_nat (3 - 1)) with 2%nat in *.
  assert (Hfound : forall k status v,
            (k < 3)%nat -> net url k = Response status (Some v) -> is_2xx status = true ->
            (forall j, (j < k)%nat -> retryable (net url j) = true) ->
            exists k status,
              (k < 3)%nat /\ net url k = Response status (Some v) /\ is_2xx status = true
              /\ forall j, (j < k)%nat -> retryable (net url j) = true) by eauto 8.
  destruct (retryable (net url 0%nat)) eqn:R0.
  - destruct (T1 (Fetch.mk_retry 1 None []) eq_refl ltac:(discriminate)) as [le1 ->].
    destruct (retryable (net url 1%nat)) eqn:R1.
    + match goal with |- context [Fetch.attempt_body _ _ 2 ?st] =>
        destruct (T2 st eq_refl ltac:(discriminate)) as [le2 ->] end.
      destruct (retryable (net url 2%nat)) eqn:R2.
      * match goal with |- context [Fetch.attempt_body _ _ 3 ?st] =>
          destruct (T3 st eq_refl) as (le3 & c & -> & Hc) end.
        destruct Hc as [[-> Hle] | [status ->]]; result_scenario.
      * match goal with |- context [Fetch.attempt_body _ _ 3 ?st] =>
          destruct (S3 st eq_refl) as (c & -> & Hc) end.
        destruct Hc as [[? ->] | [(status & v & E & H2 & ->) | (? & ? & ? & ? & ? & ->)]];
          result_scenario.
        apply (Hfound 2%nat status v); auto.
        intros [|[|j]] Hj; [assumption | assumption | lia].
    + match goal with |- context [Fetch.attempt_body _ _ 2 ?st] =>
        destruct (S2 st eq_refl) as (c & -> & Hc) end.
      destruct Hc as [[? ->] | [(status & v & E & H2 & ->) | (? & ? & ? & ? & ? & ->)]];
        result_scenario.
      apply (Hfound 1%nat status v); auto.
      intros [|j] Hj; [assumption | lia].
  - destruct (S1 (Fetch.mk_retry 1 None []) eq_refl) as (c & -> & Hc).
    destruct Hc as [[? ->] | [(status & v & E & H2 & ->) | (? & ? & ? & ? & ? & ->)]];
      result_scenario.
    apply (Hfound 0%nat status v); auto. intros j Hj. lia.
Qed.

Lemma fetch_page_result_witness :
  exists k status,
    (k < 3)%nat
    /\ recovering_network (u "page") k = Response status (Some (PInt 7))
    /\ is_2xx status = true.
Proof.
  destruct (proj1 (fetch_page_result recovering_network (u "page")) (PInt 7) eq_refl)
    as (k & status & Hk & Hnet & H2 & _).
  exists k, status. auto.
Defined.

(** * Rendering *)

Lemma trunc_bounds (s : str) (n : Z) :
  (1 <= n)%Z ->
  Compose.trunc s n <> [] /\ (Z.of_nat (length (Compose.trunc s n)) <= n)%Z.
Proof.
  intros Hn.
  assert (Hcases : exists t, t <> [] /\ Compose.trunc s n = Compose.trunc t n).
  { destruct s as [|c s]; [exists (u "-") | exists (c :: s)];
      (split; [discriminate | reflexivity]). }
  destruct Hcases as (t & Ht & ->). rewrite trunc_nonempty by exact Ht.
  destruct (Z.leb_spec (Z.of_nat (length t)) n) as [Hle | Hgt]; [now split|].
  split; [intros Happ; apply app_eq_nil in Happ as [_ Hell]; discriminate|].
  rewrite length_app, length_take. change (length Compose.ellipsis) with 1%nat. lia.
Qed.

(** X16. For a limit [n >= 1] the result of [trunc] is never empty and
    never longer than [n], and truncating it again changes nothing. *)
Theorem trunc_bounded_idempotent (s : str) (n : Z) :
  (1 <= n)%Z ->
  Compose.trunc s n <> []
  /\ (Z.of_nat (length (Compose.trunc s n)) <= n)%Z
  /\ Compose.trunc (Compose.trunc s n) n = Compose.trunc s n.
Proof.
  intros Hn. destruct (trunc_bounds s n Hn) as [Hne Hlen].
  split; [exact Hne|]. split; [exact Hlen|].
  rewrite (trunc_nonempty (Compose.trunc s n)) by exact Hne.
  apply Z.leb_le in Hlen. now rewrite Hlen.
Qed.

Lemma trunc_bounded_idempotent_witness :
  Compose.trunc (Compose.trunc (u "2025-08-25 10:00:00.0") 19) 19
  = Compose.trunc (u "2025-08-25 10:00:00.0") 19.
Proof.
  apply (trunc_bounded_idempotent (u "2025-08-25 10:00:00.0") 19). lia.
Defined.

(** X17. A section of at most ten records renders every record exactly
    once: its record lines are a rearrangement of the lines of the input
    records, and the whole section has four lines more than records. *)
Theorem section_renders_all `{Runtime} (title : str) (rows : list row) :
  rows <> [] -> (length rows <= 10)%nat ->
  Permutation (drop 4 (Compose.section_out title rows))
              (List.map Compose.line_for rows)
  /\ length (Compose.section_out title rows) = (4 + length rows)%nat.
Proof.
  intros Hne Hlen.
  assert (Hout : Compose.section_out title rows
                 = [title; []; Compose.count_line rows; []]
                   ++ List.map Compose.line_for (Compose.sorted rows)).
  { unfold Compose.section_out. destruct rows as [|r rows]; [contradiction|].
    cbv zeta. rewrite take_ge; [reflexivity|].
    rewrite (Permutation_length (sorted_perm (r :: rows))). exact Hlen. }
  rewrite Hout. split.
  - cbn [app drop]. rewrite drop_0. apply Permutation_map, sorted_perm.
  - rewrite length_app, length_map, (Permutation_length (sorted_perm rows)). reflexivity.
Qed.

Lemma section_renders_all_witness :
  length (@Compose.section_out demo_runtime (u "[v12]")
            [record "강남구" "접수중" "가족"; record "서초구" "안내중" "유아"]) = 6%nat.
Proof.
  apply (@section_renders_all demo_runtime (u "[v12]")
           [record "강남구" "접수중" "가족"; record "서초구" "안내중" "유아"]).
  - discriminate.
  - cbn. lia.
Defined.

(** X18. [contains_any] holds exactly when some needle of the list occurs
    in the haystack as a contiguous substring; so it fails for an empty
    needle list, and holds for every haystack once the list contains the
    empty string. *)
Theorem contains_any_spec (haystack : str) (needles : list str) :
  (Fetch.contains_any haystack needles = true
   <-> exists n, In n needles /\ substring n haystack)
  /\ Fetch.contains_any haystack [] = false
  /\ (In [] needles -> Fetch.contains_any haystack needles = true).
Proof.
  assert (Hiff : Fetch.contains_any haystack needles = true
                 <-> exists n, In n needles /\ substring n haystack).
  { unfold Fetch.contains_any.
    replace (str_or haystack []) with haystack by now destruct haystack.
    rewrite existsb_exists. split; intros (n & Hin & Hn); exists n;
      (split; [exact Hin | now apply str_in_spec]). }
  split; [exact Hiff|]. split; [reflexivity|].
  intros Hin. apply Hiff. exists []. split; [exact Hin|].
  exists [], haystack. reflexivity.
Qed.

Lemma contains_any_spec_witness :
  Fetch.contains_any (u "초등학생 가족") [u "성인"; []] = true.
Proof.
  apply (proj2 (proj2 (contains_any_spec (u "초등학생 가족") [u "성인"; []]))).
  right. left. reflexivity.
Defined.

(** X19. A digest line is the fixed frame around five truncated fields
    and the link: the area and status take at most 10 characters, the
    name at most 40, each reception timestamp at most 19, and none is
    empty. The link is the dash exactly when the service id reads as
    empty or as a dash, and otherwise the deep link with the whole id. *)
Theorem line_for_shape `{Runtime} (r : row) :
  exists areanm svcnm svcstat rcpbgn rcpend link,
    Compose.line_for r
    = u "- [" ++ areanm ++ u "] " ++ svcnm ++ u " (" ++ svcstat ++ u ") | "
      ++ u "접수: " ++ rcpbgn ++ u " ~ " ++ rcpend ++ u " | 링크: " ++ link
    /\ (1 <= length areanm <= 10)%nat /\ (1 <= length svcnm <= 40)%nat
    /\ (1 <= length svcstat <= 10)%nat
    /\ (1 <= length rcpbgn <= 19)%nat /\ (1 <= length rcpend <= 19)%nat
    /\ (blank_field r "SVCID" -> link = u "-")
    /\ (forall s, r !! u "SVCID" = Some (PStr s) -> s <> [] -> s <> u "-" ->
                  link = link_of s).
Proof.
  assert (Hb : forall s n, (1 <= n)%Z ->
                 (1 <= length (Compose.trunc s n) <= Z.to_nat n)%nat).
  { intros s n Hn. destruct (trunc_bounds s n Hn) as [Hne Hlen].
    destruct (Compose.trunc s n); [contradiction|]. cbn [length] in *. lia. }
  do 6 eexists. split; [reflexivity|].
  split; [apply (Hb _ 10%Z); lia|]. split; [apply (Hb _ 40%Z); lia|].
  split; [apply (Hb _ 10%Z); lia|]. split; [apply (Hb _ 19%Z); lia|].
  split; [apply (Hb _ 19%Z); lia|]. split.
  - intros Hblank.
    assert (Hf : field_str r "SVCID" "-" = u "-").
    { unfold field_str, dict_get, py_or.
      destruct Hblank as [Hk | [Hk | Hk]]; rewrite Hk; reflexivity. }
    rewrite Hf. reflexivity.
  - intros s Hs Hne Hdash.
    rewrite (field_str_of_string r "SVCID" "-" s Hs Hne).
    unfold str_eqb. rewrite bool_decide_eq_false_2 by exact Hdash.
    unfold link_of. cbn [negb]. reflexivity.
Qed.

Lemma line_for_shape_witness :
  exists line, @Compose.line_for demo_runtime (record "강남구" "접수중" "가족")
               = line ++ u " | 링크: " ++ u "-".
Proof.
  destruct (@line_for_shape demo_runtime (record "강남구" "접수중" "가족"))
    as (a & n & s & b & e & link & Hline & _ & _ & _ & _ & _ & Hblank & _).
  rewrite Hline, Hblank by (left; reflexivity).
  exists (u "- [" ++ a ++ u "] " ++ n ++ u " (" ++ s ++ u ") | "
          ++ u "접수: " ++ b ++ u " ~ " ++ e).
  rewrite <- !app_assoc. reflexivity.
Defined.

(** X20. In the sorted list of the composer, once a record has the
    sentinel key (no date of it parses), every record after it has the
    sentinel key too, provided the keys of the list are datetimes within
    their field ranges: undated records are never followed by a dated
    one. *)
Theorem undated_records_last `{Runtime} (rows l1 l2 : list row) (r : row) :
  Forall (fun q => dt_valid (Compose.sort_key q)) rows ->
  Compose.sorted rows = l1 ++ r :: l2 ->
  Compose.sort_key r = datetime_max ->
  Forall (fun q => Compose.sort_key q = datetime_max) l2.
Proof.
  intros Hvalid Hsplit Hr.
  pose proof (sentinel_sorts_last rows l1 l2 r Hsplit Hr) as Hafter.
  assert (Hin : Forall (fun q => dt_valid (Compose.sort_key q)) l2).
  { rewrite Forall_forall in *. intros q Hq. apply Hvalid.
    rewrite <- (sorted_perm rows), Hsplit. apply list_elem_of_In.
    apply in_or_app. right. right. now apply list_elem_of_In. }
  rewrite Forall_forall in *. intros q Hq.
  pose proof (dt_leb_max _ (Hin q Hq)) as Hle. pose proof (Hafter q Hq) as Hge.
  unfold dt_leb, dt_ltb in Hle, Hge. apply negb_true_iff in Hle, Hge.
  pose proof (lex_ltb_total _ _ Hge Hle) as Heq.
  destruct (Compose.sort_key q). unfold datetime_max in *. cbn in Heq.
  now injection Heq as -> -> -> -> -> -> ->.
Qed.

Lemma undated_records_last_witness :
  let dated : row := {[ u "RCPTBGNDT" := PStr (u "20250825") ]} in
  let undated : row := {[ u "RCPTBGNDT" := PStr (u "soon") ]} in
  Forall (fun q => @Compose.sort_key demo_runtime q = datetime_max) [undated].
Proof.
  intros dated undated.
  apply (@undated_records_last demo_runtime [undated; dated; undated] [dated] [undated]
           undated).
  - repeat constructor; vm_compute; intuition discriminate.
  - vm_compute. reflexivity.
  - vm_compute. reflexivity.
Defined.
